(** * TypeChecker: runtime type checkers and their combinators

    A shallow embedding of [src/TypeChecker.ts].  A [TypeChecker] is a
    one-argument predicate over arbitrary runtime values; the library
    offers primitive checkers, combinators that build checkers from
    checkers, and [cast], which turns a rejection into a [TypeError].

    The first part fixes the universe of runtime values the checkers are
    applied to, together with the host operations the source relies on
    ([typeof], property lookup, [Object.keys], [Array.prototype.every],
    [JSON.stringify], regular-expression tests).  The second part
    transcribes the source, function by function; the third holds the
    vocabulary of the statements.  The theorems follow. *)

From Stdlib Require Import List String Ascii ZArith Bool Lia DecimalString.
From Stdlib Require Import Permutation Eqdep_dec.
Import ListNotations.

Local Open Scope list_scope.
Local Open Scope string_scope.

(** ** Runtime values *)

(** Numbers.  The finite doubles are represented by the safe integers
    among them (magnitude at most [MAX_SAFE_INTEGER], where every
    integer is a double and renders as its decimal digits); [NaN] and
    the two infinities are kept because equality and serialisation
    treat them specially.  Fractional and larger doubles are outside
    this universe. *)
Definition MAX_SAFE_INTEGER : Z := 9007199254740991.

Definition is_safe (z : Z) : bool := Z.leb (Z.abs z) MAX_SAFE_INTEGER.

Record safe_integer : Type := mkSafe {
  int_value : Z;
  int_safe : is_safe int_value = true
}.

(** The safe integer [z]; [0] stands in when [z] is not safe. *)
Definition safe_integer_of_Z (z : Z) : safe_integer :=
  match is_safe z as b return is_safe z = b -> safe_integer with
  | true => fun safe => mkSafe z safe
  | false => fun _ => mkSafe 0 eq_refl
  end eq_refl.

Inductive number : Type :=
| NaN
| Infinity (negative : bool)
| Finite (i : safe_integer).

(** Property keys are strings or symbols. *)
Inductive propkey : Type :=
| KString (s : string)
| KSymbol (id : nat).

(** A data property: key, enumerable flag, value. *)
Record property (V : Type) : Type := mkProperty {
  p_key : propkey;
  p_enumerable : bool;
  p_value : V
}.
Arguments mkProperty {V} _ _ _.
Arguments p_key {V} _.
Arguments p_enumerable {V} _.
Arguments p_value {V} _.

(** Values.  Functions and symbols are opaque identities.  An object has
    - [elements]: [Some l] for an Array (dense, [l] its elements),
      [None] for an ordinary object;
    - [props]: its further own data properties, in the order in which
      the host enumerates own keys;
    - [proto]: its prototype, [None] for [null].
    Accessor properties, Proxies and cyclic object graphs are outside
    this universe. *)
Local Unset Elimination Schemes.

Inductive value : Type :=
| VUndefined
| VNull
| VBoolean (b : bool)
| VNumber (n : number)
| VString (s : string)
| VBigInt (z : Z)
| VSymbol (id : nat)
| VFunction (id : nat)
| VObject (o : object)
with object : Type :=
| Obj (elements : option (list value))
      (props : list (property value))
      (proto : option object).

Local Set Elimination Schemes.

(** Induction on the values contained in a value: the elements of an
    Array and the values of the own properties. *)

Section ValueInduction.

Variable P : value -> Prop.

Hypothesis P_undefined : P VUndefined.
Hypothesis P_null : P VNull.
Hypothesis P_boolean : forall b, P (VBoolean b).
Hypothesis P_number : forall n, P (VNumber n).
Hypothesis P_string : forall s, P (VString s).
Hypothesis P_bigint : forall z, P (VBigInt z).
Hypothesis P_symbol : forall id, P (VSymbol id).
Hypothesis P_function : forall id, P (VFunction id).
Hypothesis P_object :
  forall el ps pr,
    match el with Some l => Forall P l | None => True end ->
    Forall (fun p => P (p_value p)) ps ->
    P (VObject (Obj el ps pr)).

Fixpoint value_contents_ind (v : value) : P v :=
  match v with
  | VUndefined => P_undefined
  | VNull => P_null
  | VBoolean b => P_boolean b
  | VNumber n => P_number n
  | VString s => P_string s
  | VBigInt z => P_bigint z
  | VSymbol id => P_symbol id
  | VFunction id => P_function id
  | VObject (Obj el ps pr) =>
      P_object el ps pr
        (match el as el0
               return match el0 with Some l => Forall P l | None => True end
         with
         | Some l =>
             (fix elems (l : list value) : Forall P l :=
                match l with
                | [] => Forall_nil P
                | x :: l' => Forall_cons x (value_contents_ind x) (elems l')
                end) l
         | None => I
         end)
        ((fix members (ps : list (property value))
            : Forall (fun p => P (p_value p)) ps :=
            match ps with
            | [] => Forall_nil _
            | p :: ps' =>
                @Forall_cons _ (fun p => P (p_value p)) p ps'
                  (value_contents_ind (p_value p)) (members ps')
            end) ps)
  end.

End ValueInduction.

(** ** Results: a returned value or a thrown exception *)

Inductive exn : Type :=
| TypeError (message : string)
| Thrown (v : value).

Inductive result (A : Type) : Type :=
| Ok (a : A)
| Throw (e : exn).
Arguments Ok {A} _.
Arguments Throw {A} _.

Definition bind {A B : Type} (r : result A) (k : A -> result B) : result B :=
  match r with
  | Ok a => k a
  | Throw e => Throw e
  end.

Notation "x <- r ;; k" := (bind r (fun x => k))
  (at level 61, r at next level, right associativity).

(** [type TypeChecker<T = any> = (val: any) => val is T] *)
Definition TypeChecker : Type := value -> result bool.

(** ** Host operations *)

(** The [typeof] operator. *)
Definition typeof (v : value) : string :=
  match v with
  | VUndefined => "undefined"
  | VNull => "object"
  | VBoolean _ => "boolean"
  | VNumber _ => "number"
  | VString _ => "string"
  | VBigInt _ => "bigint"
  | VSymbol _ => "symbol"
  | VFunction _ => "function"
  | VObject _ => "object"
  end.

(** [v === null] and [v === undefined]. *)
Definition strict_equals_null (v : value) : bool :=
  match v with VNull => true | _ => false end.

Definition strict_equals_undefined (v : value) : bool :=
  match v with VUndefined => true | _ => false end.

(** [ToBoolean]: the truthiness of a value. *)
Definition ToBoolean (v : value) : bool :=
  match v with
  | VUndefined | VNull => false
  | VBoolean b => b
  | VNumber NaN => false
  | VNumber (Finite i) => negb (Z.eqb (int_value i) 0)
  | VNumber (Infinity _) => true
  | VString s => negb (String.eqb s "")
  | VBigInt z => negb (Z.eqb z 0)
  | VSymbol _ | VFunction _ | VObject _ => true
  end.

(** Decimal rendering of array indices and of safe integers. *)
Definition string_of_nat (n : nat) : string :=
  NilZero.string_of_uint (Nat.to_uint n).

Definition string_of_Z (z : Z) : string :=
  NilZero.string_of_int (Z.to_int z).

(** [Array.prototype.every] over a dense array: left to right, stops at
    the first falsy answer, and an exception of the callback escapes. *)
Fixpoint every {A : Type} (f : A -> result bool) (l : list A) : result bool :=
  match l with
  | [] => Ok true
  | x :: l' => b <- f x ;; if b then every f l' else Ok false
  end.

(** *** Objects *)

Fixpoint index_properties (i : nat) (l : list value) : list (property value) :=
  match l with
  | [] => []
  | x :: l' =>
      mkProperty (KString (string_of_nat i)) true x :: index_properties (S i) l'
  end.

(** All own properties, in the host's enumeration order: for an Array
    the index properties and the non-enumerable [length] come first. *)
Definition own_properties (o : object) : list (property value) :=
  match o with
  | Obj (Some l) ps _ =>
      (index_properties 0 l
         ++ mkProperty (KString "length") false
              (VNumber (Finite (safe_integer_of_Z (Z.of_nat (List.length l)))))
              :: ps)%list
  | Obj None ps _ => ps
  end.

Definition prototype (o : object) : option object :=
  match o with Obj _ _ p => p end.

Definition propkey_eqb (a b : propkey) : bool :=
  match a, b with
  | KString s, KString t => String.eqb s t
  | KSymbol i, KSymbol j => Nat.eqb i j
  | _, _ => false
  end.

Definition has_key (k : propkey) (p : property value) : bool :=
  propkey_eqb (p_key p) k.

Definition get_own (o : object) (k : propkey) : option value :=
  option_map p_value (find (has_key k) (own_properties o)).

(** [o[k]]: the own property if there is one, else the lookup goes up
    the prototype chain; [undefined] when the chain ends. *)
Fixpoint get (o : object) (k : propkey) : value :=
  match get_own o k with
  | Some v => v
  | None =>
      match o with
      | Obj _ _ (Some p) => get p k
      | Obj _ _ None => VUndefined
      end
  end.

(** [v[k]] for a string key.  The source evaluates it on objects only
    (after [isObject] has accepted [v]). *)
Definition get_property (v : value) (k : string) : value :=
  match v with
  | VObject o => get o (KString k)
  | _ => VUndefined
  end.

(** [k in o]: the property is found on the object or up its prototype
    chain. *)
Fixpoint has_property (o : object) (k : propkey) : bool :=
  match get_own o k with
  | Some _ => true
  | None =>
      match o with
      | Obj _ _ (Some p) => has_property p k
      | Obj _ _ None => false
      end
  end.

Definition enumerable_string_key (p : property value) : bool :=
  p_enumerable p && match p_key p with KString _ => true | KSymbol _ => false end.

Definition key_string (p : property value) : string :=
  match p_key p with KString s => s | KSymbol _ => "" end.

(** [Object.keys(v)] and [Object.values(v)] of an object: the own
    enumerable string-keyed properties, in order. *)
Definition own_enumerable (o : object) : list (property value) :=
  filter enumerable_string_key (own_properties o).

Definition Object_keys (o : object) : list string :=
  map key_string (own_enumerable o).

Definition Object_values (o : object) : list value :=
  map p_value (own_enumerable o).

(** [Array.isArray(v)]. *)
Definition Array_isArray (v : value) : bool :=
  match v with
  | VObject (Obj (Some _) _ _) => true
  | _ => false
  end.

Definition array_elements (v : value) : list value :=
  match v with
  | VObject (Obj (Some l) _ _) => l
  | _ => []
  end.

(** Two built-in functions by their identities: [Array.prototype.every]
    and [Object.prototype.toString]. *)
Definition Array_prototype_every : nat := 0.
Definition Object_prototype_toString : nat := 1.

(** [Object.prototype] and [Array.prototype], kept to the methods the
    statements below look up: [toString] on the first, [every] on the
    second. *)
Definition Object_prototype : object :=
  Obj None
    [mkProperty (KString "toString") false (VFunction Object_prototype_toString)]
    None.

Definition Array_prototype : object :=
  Obj None
    [mkProperty (KString "every") false (VFunction Array_prototype_every)]
    (Some Object_prototype).

(** *** [JSON.stringify] *)

Definition dquote : string := String (ascii_of_nat 34) "".
Definition backslash : string := String (ascii_of_nat 92) "".

Definition hex_digit (n : nat) : string :=
  String (nth n (list_ascii_of_string "0123456789abcdef") "0"%char) "".

(** One code unit of a quoted JSON string. *)
Definition escape_char (c : ascii) : string :=
  let n := nat_of_ascii c in
  if Nat.eqb n 34 then backslash ++ dquote
  else if Nat.eqb n 92 then backslash ++ backslash
  else if Nat.eqb n 8 then backslash ++ "b"
  else if Nat.eqb n 9 then backslash ++ "t"
  else if Nat.eqb n 10 then backslash ++ "n"
  else if Nat.eqb n 12 then backslash ++ "f"
  else if Nat.eqb n 13 then backslash ++ "r"
  else if Nat.ltb n 32 then
    backslash ++ "u00" ++ hex_digit (Nat.div n 16) ++ hex_digit (Nat.modulo n 16)
  else String c "".

Fixpoint escape_string (s : string) : string :=
  match s with
  | EmptyString => ""
  | String c s' => escape_char c ++ escape_string s'
  end.

Definition QuoteJSONString (s : string) : string :=
  dquote ++ escape_string s ++ dquote.

(** Serialising a BigInt throws a [TypeError]; the wording of its
    message is the engine's. *)
Definition BigInt_not_serializable : exn :=
  TypeError "Do not know how to serialize a BigInt".

(** [SerializeJSONProperty]: [Ok None] stands for the answer
    [undefined].  A BigInt makes the serialisation throw.  An Array
    serialises its elements ([null] in place of an [undefined] answer);
    any other object serialises its own enumerable string-keyed
    properties, leaving out those whose answer is [undefined].
    [toJSON] hooks are not part of the model. *)
Fixpoint SerializeJSONProperty (v : value) : result (option string) :=
  match v with
  | VUndefined | VSymbol _ | VFunction _ => Ok None
  | VNull => Ok (Some "null")
  | VBoolean true => Ok (Some "true")
  | VBoolean false => Ok (Some "false")
  | VNumber (Finite i) => Ok (Some (string_of_Z (int_value i)))
  | VNumber _ => Ok (Some "null")
  | VString s => Ok (Some (QuoteJSONString s))
  | VBigInt _ => Throw BigInt_not_serializable
  | VObject (Obj (Some l) _ _) =>
      parts <- (fix elems (l : list value) : result (list string) :=
                  match l with
                  | [] => Ok []
                  | x :: l' =>
                      r <- SerializeJSONProperty x ;;
                      rest <- elems l' ;;
                      Ok (match r with Some s => s | None => "null" end :: rest)
                  end) l ;;
      Ok (Some ("[" ++ String.concat "," parts ++ "]"))
  | VObject (Obj None ps _) =>
      parts <- (fix members (ps : list (property value)) : result (list string) :=
                  match ps with
                  | [] => Ok []
                  | p :: ps' =>
                      if enumerable_string_key p then
                        r <- SerializeJSONProperty (p_value p) ;;
                        rest <- members ps' ;;
                        Ok (match r with
                            | Some s => (QuoteJSONString (key_string p) ++ ":" ++ s) :: rest
                            | None => rest
                            end)
                      else members ps'
                  end) ps ;;
      Ok (Some ("{" ++ String.concat "," parts ++ "}"))
  end.

Definition JSON_stringify (v : value) : result (option string) :=
  SerializeJSONProperty v.

(** A template literal renders the answer [undefined] as the text
    [undefined]. *)
Definition template_text (r : option string) : string :=
  match r with
  | Some s => s
  | None => "undefined"
  end.

(** The two loops of [SerializeJSONProperty] on their own: over the
    elements of an Array and over the properties of an object. *)
Fixpoint serialize_elements (l : list value) : result (list string) :=
  match l with
  | [] => Ok []
  | x :: l' =>
      r <- SerializeJSONProperty x ;;
      rest <- serialize_elements l' ;;
      Ok (match r with Some s => s | None => "null" end :: rest)
  end.

Fixpoint serialize_members (ps : list (property value)) : result (list string) :=
  match ps with
  | [] => Ok []
  | p :: ps' =>
      if enumerable_string_key p then
        r <- SerializeJSONProperty (p_value p) ;;
        rest <- serialize_members ps' ;;
        Ok (match r with
            | Some s => (QuoteJSONString (key_string p) ++ ":" ++ s) :: rest
            | None => rest
            end)
      else serialize_members ps'
  end.

(** The values the serialisation visits: the value itself, the elements
    of an Array, the own enumerable string-keyed properties of any other
    object.  [reaches_bigint] tells whether a BigInt is among them. *)
Fixpoint reaches_bigint (v : value) : bool :=
  match v with
  | VBigInt _ => true
  | VObject (Obj (Some l) _ _) =>
      (fix elems (l : list value) : bool :=
         match l with
         | [] => false
         | x :: l' => reaches_bigint x || elems l'
         end) l
  | VObject (Obj None ps _) =>
      (fix members (ps : list (property value)) : bool :=
         match ps with
         | [] => false
         | p :: ps' =>
             (enumerable_string_key p && reaches_bigint (p_value p)) || members ps'
         end) ps
  | _ => false
  end.

Definition serializes (v : value) : Prop :=
  if reaches_bigint v
  then SerializeJSONProperty v = Throw BigInt_not_serializable
  else exists r, SerializeJSONProperty v = Ok r.

(** *** Regular expressions

    A pattern is kept as written; [RegExp_test] decides whether the
    whole string matches it (the patterns of the source are anchored by
    [^] and [$]), by taking derivatives character by character. *)
Inductive regex : Type :=
| Void
| Eps
| Chr (c : ascii)
| Range (lo hi : ascii)
| Seq (r s : regex)
| Alt (r s : regex)
| Star (r : regex).

(** [r?] and [r+]. *)
Definition Opt (r : regex) : regex := Alt r Eps.
Definition Plus (r : regex) : regex := Seq r (Star r).

Definition in_range (lo hi c : ascii) : bool :=
  Nat.leb (nat_of_ascii lo) (nat_of_ascii c)
  && Nat.leb (nat_of_ascii c) (nat_of_ascii hi).

Fixpoint accepts_empty (r : regex) : bool :=
  match r with
  | Void => false
  | Eps => true
  | Chr _ => false
  | Range _ _ => false
  | Seq r s => accepts_empty r && accepts_empty s
  | Alt r s => accepts_empty r || accepts_empty s
  | Star _ => true
  end.

Fixpoint derive (c : ascii) (r : regex) : regex :=
  match r with
  | Void => Void
  | Eps => Void
  | Chr d => if Ascii.eqb c d then Eps else Void
  | Range lo hi => if in_range lo hi c then Eps else Void
  | Seq r s =>
      if accepts_empty r
      then Alt (Seq (derive c r) s) (derive c s)
      else Seq (derive c r) s
  | Alt r s => Alt (derive c r) (derive c s)
  | Star r => Seq (derive c r) (Star r)
  end.

Fixpoint RegExp_test (r : regex) (s : string) : bool :=
  match s with
  | EmptyString => accepts_empty r
  | String c s' => RegExp_test (derive c r) s'
  end.

(** The strings a pattern matches. *)
Inductive matches : regex -> string -> Prop :=
| matches_eps : matches Eps ""
| matches_chr (c : ascii) : matches (Chr c) (String c "")
| matches_range (lo hi c : ascii) :
    in_range lo hi c = true -> matches (Range lo hi) (String c "")
| matches_seq (r s : regex) (u w : string) :
    matches r u -> matches s w -> matches (Seq r s) (u ++ w)
| matches_alt_l (r s : regex) (u : string) : matches r u -> matches (Alt r s) u
| matches_alt_r (r s : regex) (u : string) : matches s u -> matches (Alt r s) u
| matches_star_nil (r : regex) : matches (Star r) ""
| matches_star_cons (r : regex) (u w : string) :
    matches r u -> matches (Star r) w -> matches (Star r) (u ++ w).

(** ** The source, transcribed *)

(** *** [TypeChecker.cast] *)

(** The truthiness of the optional [expectedTypeName]: a missing name
    and the empty string are both falsy. *)
Definition truthy_name (expectedTypeName : option string) : option string :=
  match expectedTypeName with
  | Some "" => None
  | Some n => Some n
  | None => None
  end.

Definition cast (checker : TypeChecker) (expectedTypeName : option string)
  : value -> result value :=
  fun v =>
    b <- checker v ;;
    if negb b then
      match truthy_name expectedTypeName with
      | Some name =>
          r <- JSON_stringify v ;;
          Throw (TypeError
                   ("value " ++ template_text r ++ " is not of type " ++ name))
      | None =>
          r <- JSON_stringify v ;;
          Throw (TypeError ("value " ++ template_text r ++ " is of an invalid type"))
      end
    else Ok v.

(** *** TypeCheckers for basic and primitive types *)

Definition isNever : TypeChecker := fun val => Ok false.

Definition isAny : TypeChecker := fun val => Ok true.

Definition isBigint : TypeChecker := fun v => Ok (typeof v =? "bigint").

Definition isBoolean : TypeChecker := fun v => Ok (typeof v =? "boolean").

Definition isFunction : TypeChecker := fun v => Ok (typeof v =? "function").

Definition isNull : TypeChecker := fun v => Ok (strict_equals_null v).

Definition isNumber : TypeChecker := fun v => Ok (typeof v =? "number").

Definition isObject : TypeChecker :=
  fun v => Ok ((typeof v =? "object") && negb (strict_equals_null v)).

Definition isString : TypeChecker := fun v => Ok (typeof v =? "string").

Definition isSymbol : TypeChecker := fun v => Ok (typeof v =? "symbol").

Definition isUndefined : TypeChecker := fun v => Ok (strict_equals_undefined v).

(** *** Connectives *)

(** The [for ... of] loop of [getUnionOf]. *)
Fixpoint getUnionOf (checkers : list TypeChecker) (v : value) : result bool :=
  match checkers with
  | [] => Ok false
  | checker :: rest =>
      b <- checker v ;;
      if b then Ok true else getUnionOf rest v
  end.

Section Intersection.

(** What a function value answers when it is called with a checker as
    its only argument: the behaviour of the functions among the values
    is a parameter of the development. *)
Variable call_function : nat -> TypeChecker -> result value.

(** Calling what is not a function throws a [TypeError]; the wording of
    its message is the engine's. *)
Definition not_a_function : exn := TypeError "v is not a function".

(** The call expression [v(c)]. *)
Definition call (v : value) (c : TypeChecker) : result value :=
  match v with
  | VFunction f => call_function f c
  | _ => Throw not_a_function
  end.

(** [v => checkers.every(c => v(c))] *)
Definition getIntersectionOf (checkers : list TypeChecker) : TypeChecker :=
  fun v => every (fun c => r <- call v c ;; Ok (ToBoolean r)) checkers.

End Intersection.

(** *** Higher order *)

Section ArrayChecker.

(** What a function value other than the built-in [every] answers when
    it is called as a method of [v] with a checker as its only
    argument. *)
Variable call_method : nat -> value -> TypeChecker -> result value.

(** The method call [v.every(checker)]: [every] is looked up on [v],
    own property first, then up the prototype chain.  The built-in runs
    over the elements; another function answers for itself, and its
    answer counts by its truthiness; anything else cannot be called. *)
Definition call_every (v : value) (checker : TypeChecker) : result bool :=
  match get_property v "every" with
  | VFunction f =>
      if Nat.eqb f Array_prototype_every
      then every checker (array_elements v)
      else r <- call_method f v checker ;; Ok (ToBoolean r)
  | _ => Throw (TypeError "v.every is not a function")
  end.

Definition getArrayChecker (checker : TypeChecker) : TypeChecker :=
  fun v => if Array_isArray v then call_every v checker else Ok false.

End ArrayChecker.

(** A mapping of keys to checkers: the enumerable string keys of the
    [mapping] object with their checkers, in [for ... in] order. *)
Definition Mapping : Type := list (string * TypeChecker).

(** [mapping[k]] *)
Definition mapping_get (mapping : Mapping) (k : string) : option TypeChecker :=
  option_map snd (find (fun e => fst e =? k) mapping).

(** The [for (const k in mapping)] loop, over the keys still to visit. *)
Fixpoint check_values (mapping : Mapping) (v : value) (keys : list string)
  : result bool :=
  match keys with
  | [] => Ok true
  | k :: keys' =>
      match mapping_get mapping k with
      | Some checker =>
          b <- checker (get_property v k) ;;
          if negb b then Ok false else check_values mapping v keys'
      | None => Throw (TypeError "mapping[k] is not a function")
      end
  end.

Definition getMappedChecker (mapping : Mapping) : TypeChecker :=
  fun v =>
    b <- isObject v ;;
    if negb b then Ok false
    else check_values mapping v (map fst mapping).

Definition keys_of (v : value) : list value :=
  match v with
  | VObject o => map VString (Object_keys o)
  | _ => []
  end.

Definition values_of (v : value) : list value :=
  match v with
  | VObject o => Object_values o
  | _ => []
  end.

Definition getRecordChecker (keyChecker valueChecker : TypeChecker) : TypeChecker :=
  fun v =>
    b <- isObject v ;;
    if b then
      b' <- every keyChecker (keys_of v) ;;
      if b' then every valueChecker (values_of v) else Ok false
    else Ok false.

(** Literals: [string | boolean | number | bigint]. *)
Inductive literal : Type :=
| LString (s : string)
| LBoolean (b : bool)
| LNumber (n : number)
| LBigInt (z : Z).

(** [Number::equal]: [NaN] is equal to nothing. *)
Definition number_equal (a b : number) : bool :=
  match a, b with
  | Finite x, Finite y => Z.eqb (int_value x) (int_value y)
  | Infinity s, Infinity t => Bool.eqb s t
  | _, _ => false
  end.

(** [v === l] for a primitive [l]. *)
Definition strict_equals (v : value) (l : literal) : bool :=
  match v, l with
  | VString s, LString t => s =? t
  | VBoolean a, LBoolean b => Bool.eqb a b
  | VNumber a, LNumber b => number_equal a b
  | VBigInt a, LBigInt b => Z.eqb a b
  | _, _ => false
  end.

Definition getLiteralChecker (expected : literal) : TypeChecker :=
  fun v => Ok (strict_equals v expected).

(** *** Other *)

Definition digit : regex := Range "0" "9".

(** [/^-?[0-9]+(\.[0-9]+)?(e-?[0-9]+)?$/] *)
Definition NUMBER_REGEX : regex :=
  Seq (Opt (Chr "-"))
    (Seq (Plus digit)
       (Seq (Opt (Seq (Chr ".") (Plus digit)))
          (Opt (Seq (Chr "e") (Seq (Opt (Chr "-")) (Plus digit)))))).

(** [type Enum = Record<string, string | number>]: the own enumerable
    properties of the enum object, in key order. *)
Inductive enum_member : Type :=
| EString (s : string)
| ENumber (n : number).

Definition Enum : Type := list (string * enum_member).

Definition literal_of_member (m : enum_member) : literal :=
  match m with
  | EString s => LString s
  | ENumber n => LNumber n
  end.

(** [Object.keys(enumType)] and [enumType[k]] ([None]: [undefined]). *)
Definition enum_keys (enumType : Enum) : list string := map fst enumType.

Definition enum_get (enumType : Enum) (k : string) : option enum_member :=
  option_map snd (find (fun e => fst e =? k) enumType).

(** [SameValueZero], the comparison of [Array.prototype.includes]:
    strict equality, except that [NaN] is the same as [NaN]. *)
Definition same_value_zero (v : value) (l : literal) : bool :=
  match v, l with
  | VNumber NaN, LNumber NaN => true
  | _, _ => strict_equals v l
  end.

Definition includes (values : list (option enum_member)) (v : value) : bool :=
  existsb (fun candidate =>
             match candidate with
             | Some m => same_value_zero v (literal_of_member m)
             | None => strict_equals_undefined v
             end) values.

Definition enum_values (enumType : Enum) : list (option enum_member) :=
  map (enum_get enumType)
    (filter (fun k => negb (RegExp_test NUMBER_REGEX k)) (enum_keys enumType)).

Definition getEnumChecker (enumType : Enum) : TypeChecker :=
  let values := enum_values enumType in
  fun v => Ok (includes values v).

(** [getInstanceChecker] tests [v instanceof cls], which compares
    prototype objects by identity; the values here carry no identity
    and the function is left out. *)

Definition nullable (checker : TypeChecker) : TypeChecker :=
  fun v => if strict_equals_null v then Ok true else checker v.

(** ** Vocabulary of the statements *)

(** *** Sample values *)

(** The number [z], for a safe integer [z]. *)
Definition num (z : Z) : value := VNumber (Finite (safe_integer_of_Z z)).

(** An object literal [{k1: v1, ...}]; its prototype chain is left
    empty. *)
Definition object_literal (l : list (string * value)) : value :=
  VObject (Obj None (map (fun kv => mkProperty (KString (fst kv)) true (snd kv)) l) None).

(** An array literal [[v1, ...]]: its prototype is [Array.prototype]. *)
Definition array_literal (l : list value) : value :=
  VObject (Obj (Some l) [] (Some Array_prototype)).

(** The object literal [{}]: its prototype is [Object.prototype]. *)
Definition empty_object : object := Obj None [] (Some Object_prototype).

(** *** Primitive categories *)

(** The nine primitive categories: the runtime kind reported by
    [typeof], with [null] split off from the objects. *)
Inductive category : Type :=
| CBigint | CBoolean | CFunction | CNull | CNumber
| CObject | CString | CSymbol | CUndefined.

Definition category_of (v : value) : category :=
  match v with
  | VUndefined => CUndefined
  | VNull => CNull
  | VBoolean _ => CBoolean
  | VNumber _ => CNumber
  | VString _ => CString
  | VBigInt _ => CBigint
  | VSymbol _ => CSymbol
  | VFunction _ => CFunction
  | VObject _ => CObject
  end.

Definition category_eqb (a b : category) : bool :=
  match a, b with
  | CBigint, CBigint | CBoolean, CBoolean | CFunction, CFunction
  | CNull, CNull | CNumber, CNumber | CObject, CObject
  | CString, CString | CSymbol, CSymbol | CUndefined, CUndefined => true
  | _, _ => false
  end.

Definition primitive_checker (k : category) : TypeChecker :=
  match k with
  | CBigint => isBigint
  | CBoolean => isBoolean
  | CFunction => isFunction
  | CNull => isNull
  | CNumber => isNumber
  | CObject => isObject
  | CString => isString
  | CSymbol => isSymbol
  | CUndefined => isUndefined
  end.

(** *** Property lookup *)

(** What [o[k]] finds, told without the lookup function: the value of
    the first own property keyed [k]; when there is none, what the
    prototype finds; [undefined] when there is no prototype either. *)
Inductive property_lookup : object -> string -> value -> Prop :=
| lookup_own (o : object) (k : string)
    (before after : list (property value)) (p : property value) :
    own_properties o = (before ++ p :: after)%list ->
    Forall (fun q => p_key q <> KString k) before ->
    p_key p = KString k ->
    property_lookup o k (p_value p)
| lookup_inherited (el : option (list value)) (ps : list (property value))
    (proto : object) (k : string) (x : value) :
    Forall (fun q => p_key q <> KString k) (own_properties (Obj el ps (Some proto))) ->
    property_lookup proto k x ->
    property_lookup (Obj el ps (Some proto)) k x
| lookup_missing (el : option (list value)) (ps : list (property value))
    (k : string) :
    Forall (fun q => p_key q <> KString k) (own_properties (Obj el ps None)) ->
    property_lookup (Obj el ps None) k VUndefined.

(** The property as the specification words it for a mapping
    (own-property shape): the own property of the value at the key, and
    [undefined] when the key is absent from the value. *)
Definition own_property_or_undefined (v : value) (k : string) : value :=
  match v with
  | VObject o =>
      match get_own o (KString k) with
      | Some x => x
      | None => VUndefined
      end
  | _ => VUndefined
  end.

(** *** Answers *)

(** A checker that answers with a boolean on [v]. *)
Definition returns_on (v : value) (c : TypeChecker) : Prop :=
  exists b, c v = Ok b.

(** A checker is total when it answers with a boolean on every value.
    The primitive checkers are total; the union, mapped, record,
    literal, enum and nullable combinators build total checkers from
    total checkers, and the Array checker answers wherever the [every]
    method of the value is the built-in one. *)
Definition total (c : TypeChecker) : Prop := forall v, returns_on v c.

(** A checker that throws on every value. *)
Definition throwing : TypeChecker := fun _ => Throw (TypeError "unreachable").

(** *** Messages of [cast] *)

(** The message as the specification words it: one text when a name was
    supplied, the other when none was. *)
Definition message_by_supplied_name (name : option string) (rendering : string)
  : string :=
  match name with
  | Some n => "value " ++ rendering ++ " is not of type " ++ n
  | None => "value " ++ rendering ++ " is of an invalid type"
  end.

(** The message of the source: the empty name counts as no name. *)
Definition message_by_nonempty_name (name : option string) (rendering : string)
  : string :=
  match name with
  | Some n =>
      if n =? "" then "value " ++ rendering ++ " is of an invalid type"
      else "value " ++ rendering ++ " is not of type " ++ n
  | None => "value " ++ rendering ++ " is of an invalid type"
  end.

(** *** Numeric literals and enum candidates *)

(** The pattern in the words of the specification: an optional leading
    minus, one or more digits, an optional decimal fraction, an optional
    exponent. *)
Definition is_digit (c : ascii) : bool := in_range "0" "9" c.

Fixpoint all_digits (s : string) : bool :=
  match s with
  | EmptyString => true
  | String c s' => is_digit c && all_digits s'
  end.

Definition digits (s : string) : Prop := s <> "" /\ all_digits s = true.

Definition optional (P : string -> Prop) (s : string) : Prop := s = "" \/ P s.

Definition minus (s : string) : Prop := s = "-".

Definition fraction (s : string) : Prop :=
  exists d, s = "." ++ d /\ digits d.

Definition exponent (s : string) : Prop :=
  exists sign d, s = "e" ++ sign ++ d /\ optional minus sign /\ digits d.

Definition numeric_literal (s : string) : Prop :=
  exists sign int frac exp,
    s = sign ++ int ++ frac ++ exp
    /\ optional minus sign
    /\ digits int
    /\ optional fraction frac
    /\ optional exponent exp.

(** The candidate values in the words of the specification: the values
    of the keys that are not numeric literals; a value is accepted when
    it strictly equals one of them. *)
Definition candidate (enumType : Enum) (m : enum_member) : Prop :=
  exists k, In k (enum_keys enumType)
            /\ ~ numeric_literal k
            /\ enum_get enumType k = Some m.

Definition strictly_equals_a_candidate (enumType : Enum) (v : value) : Prop :=
  exists m, candidate enumType m /\ strict_equals v (literal_of_member m) = true.

(** The enum [{Red: 0, Green: 1}] as the compiler emits it, with its
    reverse aliases. *)
Definition Red_Green : Enum :=
  [("0", EString "Red"); ("1", EString "Green");
   ("Red", ENumber (Finite (safe_integer_of_Z 0)));
   ("Green", ENumber (Finite (safe_integer_of_Z 1)))].

(** *** Further vocabulary *)

(** The value a literal stands for. *)
Definition value_of_literal (l : literal) : value :=
  match l with
  | LString s => VString s
  | LBoolean b => VBoolean b
  | LNumber n => VNumber n
  | LBigInt z => VBigInt z
  end.

(** The nine primitive checkers of the source, in its order. *)
Definition primitive_checkers : list TypeChecker :=
  [isBigint; isBoolean; isFunction; isNull; isNumber;
   isObject; isString; isSymbol; isUndefined].

(** An enum entry whose key [NUMBER_REGEX] matches. *)
Definition numeric_key (entry : string * enum_member) : bool :=
  RegExp_test NUMBER_REGEX (fst entry).

(** The characters a numeric literal is made of. *)
Definition literal_char (c : ascii) : bool :=
  is_digit c || Ascii.eqb c "-" || Ascii.eqb c "." || Ascii.eqb c "e".

Fixpoint all_chars (p : ascii -> bool) (s : string) : bool :=
  match s with
  | EmptyString => true
  | String c s' => p c && all_chars p s'
  end.

Definition starts_with (p : ascii -> bool) (s : string) : bool :=
  match s with
  | EmptyString => false
  | String c _ => p c
  end.

(** * Theorems *)

(** ** Primitive checkers *)

Lemma category_eqb_eq (a b : category) : category_eqb a b = true <-> a = b.
Proof.
  split.
  - destruct a, b; simpl; intros H; try reflexivity; discriminate H.
  - intros ->. destruct b; reflexivity.
Qed.

(** C9: a primitive checker accepts a value exactly when the value's
    runtime kind is the checker's category: it rejects every value of
    another category, and no two primitive checkers accept the same
    value; [isObject] rejects [null] and accepts [{}], [isNull] accepts
    [null] and rejects [undefined], and [isUndefined] accepts
    [undefined] and nothing else. *)
Theorem primitive_checkers_exclusive :
  (forall k v, primitive_checker k v = Ok (category_eqb k (category_of v)))
  /\ (forall k v, category_of v <> k -> primitive_checker k v = Ok false)
  /\ (forall k k' v,
         primitive_checker k v = Ok true ->
         primitive_checker k' v = Ok true -> k = k')
  /\ isObject VNull = Ok false
  /\ isObject (object_literal []) = Ok true
  /\ isNull VNull = Ok true
  /\ isNull VUndefined = Ok false
  /\ (forall v, isUndefined v = Ok true <-> v = VUndefined).
Proof.
  assert (E : forall k v,
             primitive_checker k v = Ok (category_eqb k (category_of v))).
  { intros k v. destruct k, v; reflexivity. }
  split; [exact E|].
  split; [|split].
  - intros k v Hne. rewrite E. f_equal.
    destruct (category_eqb k (category_of v)) eqn:Hk; [|reflexivity].
    apply category_eqb_eq in Hk. congruence.
  - intros k k' v Hk Hk'.
    rewrite E in Hk. rewrite E in Hk'.
    injection Hk as Hk. injection Hk' as Hk'.
    apply category_eqb_eq in Hk. apply category_eqb_eq in Hk'.
    congruence.
  - repeat split; try reflexivity.
    + destruct v; simpl; intros H; try reflexivity; discriminate H.
    + intros ->. reflexivity.
Qed.

Lemma primitive_checkers_exclusive_witness :
  category_of VNull <> CObject
  /\ primitive_checker CObject VNull = Ok false.
Proof.
  assert (H : category_of VNull <> CObject) by discriminate.
  split; [exact H|].
  exact (proj1 (proj2 primitive_checkers_exclusive) CObject VNull H).
Defined.

(** ** Results of [every] and of the loops *)

Lemma every_true {A : Type} (f : A -> result bool) (l : list A) :
  every f l = Ok true <-> Forall (fun x => f x = Ok true) l.
Proof.
  induction l as [|x l IH]; simpl.
  - split; [constructor | reflexivity].
  - destruct (f x) as [[|]|e] eqn:Hx; simpl.
    + rewrite IH. split.
      * intros H. constructor; assumption.
      * intros H. inversion H; assumption.
    + split; [discriminate|]. intros H. inversion H; congruence.
    + split; [discriminate|]. intros H. inversion H; congruence.
Qed.

(** [every] answers [false] exactly when some element is rejected after
    all the elements before it were accepted: the elements behind it are
    not looked at. *)
Lemma every_false {A : Type} (f : A -> result bool) (l : list A) :
  every f l = Ok false <->
  exists before x after,
    l = (before ++ x :: after)%list
    /\ Forall (fun y => f y = Ok true) before
    /\ f x = Ok false.
Proof.
  induction l as [|x l IH]; simpl.
  - split; [discriminate|].
    intros (before & y & after & H & _). destruct before; discriminate H.
  - destruct (f x) as [[|]|e] eqn:Hx; simpl.
    + rewrite IH. split.
      * intros (before & y & after & -> & Hb & Hy).
        exists (x :: before), y, after. repeat split; auto.
      * intros (before & y & after & H & Hb & Hy).
        destruct before as [|z before]; simpl in H; injection H as -> ->.
        -- congruence.
        -- inversion Hb; subst. exists before, y, after. auto.
    + split; [|reflexivity]. intros _.
      exists [], x, l. repeat split; auto.
    + split; [discriminate|].
      intros (before & y & after & H & Hb & Hy).
      destruct before as [|z before]; simpl in H; injection H as -> ->.
      * congruence.
      * inversion Hb; congruence.
Qed.

Lemma every_ext {A : Type} (f g : A -> result bool) (l : list A) :
  (forall x, In x l -> f x = g x) -> every f l = every g l.
Proof.
  induction l as [|x l IH]; simpl; intros H; [reflexivity|].
  rewrite <- (H x) by (left; reflexivity).
  destruct (f x) as [[|]|e]; simpl; auto.
Qed.

(** ** Union *)

Lemma getUnionOf_true (checkers : list TypeChecker) (v : value) :
  getUnionOf checkers v = Ok true <->
  exists before c after,
    checkers = (before ++ c :: after)%list
    /\ Forall (fun c' : TypeChecker => c' v = Ok false) before
    /\ c v = Ok true.
Proof.
  induction checkers as [|c0 cs IH]; simpl.
  - split; [discriminate|].
    intros (before & c & after & H & _). destruct before; discriminate H.
  - destruct (c0 v) as [[|]|e] eqn:H0; simpl.
    + split; [|reflexivity]. intros _.
      exists [], c0, cs. repeat split; auto.
    + rewrite IH. split.
      * intros (before & c & after & -> & Hb & Hc).
        exists (c0 :: before), c, after. repeat split; auto.
      * intros (before & c & after & H & Hb & Hc).
        destruct before as [|z before]; simpl in H; injection H as -> ->.
        -- congruence.
        -- inversion Hb; subst. exists before, c, after. auto.
    + split; [discriminate|].
      intros (before & c & after & H & Hb & Hc).
      destruct before as [|z before]; simpl in H; injection H as -> ->.
      * congruence.
      * inversion Hb; congruence.
Qed.

Lemma getUnionOf_false (checkers : list TypeChecker) (v : value) :
  getUnionOf checkers v = Ok false <->
  Forall (fun c : TypeChecker => c v = Ok false) checkers.
Proof.
  induction checkers as [|c0 cs IH]; simpl.
  - split; [constructor | reflexivity].
  - destruct (c0 v) as [[|]|e] eqn:H0; simpl.
    + split; [discriminate|]. intros H. inversion H; congruence.
    + rewrite IH. split.
      * intros H. constructor; assumption.
      * intros H. inversion H; assumption.
    + split; [discriminate|]. intros H. inversion H; congruence.
Qed.

(** C4: the union checker answers [true] exactly when some constituent
    answers [true] and all the constituents before it answered [false]
    (what comes after the first success is not evaluated, so it may be
    anything); it answers [false] exactly when every constituent
    answers [false]; over constituents that all answer on [v] it
    answers, and answers [true] iff at least one of them does; the union
    of no checkers answers [false]. *)
Theorem getUnionOf_spec (checkers : list TypeChecker) (v : value) :
  (getUnionOf checkers v = Ok true <->
   exists before c after,
     checkers = (before ++ c :: after)%list
     /\ Forall (fun c' : TypeChecker => c' v = Ok false) before
     /\ c v = Ok true)
  /\ (getUnionOf checkers v = Ok false <->
      Forall (fun c : TypeChecker => c v = Ok false) checkers)
  /\ (Forall (returns_on v) checkers ->
      returns_on v (getUnionOf checkers)
      /\ (getUnionOf checkers v = Ok true <->
          Exists (fun c : TypeChecker => c v = Ok true) checkers))
  /\ getUnionOf [] v = Ok false.
Proof.
  split; [apply getUnionOf_true|].
  split; [apply getUnionOf_false|].
  split; [|reflexivity].
  intros Htotal.
  induction checkers as [|c0 cs IH]; simpl.
  - split; [exists false; reflexivity|].
    split; [discriminate|]. intros H. inversion H.
  - inversion Htotal as [|? ? [b Hb] Hcs]; subst.
    destruct (IH Hcs) as [IHr IHt].
    unfold returns_on. simpl. rewrite Hb. simpl. destruct b.
    + split; [exists true; reflexivity|].
      split; [|reflexivity]. intros _. left. exact Hb.
    + split; [exact IHr|].
      rewrite IHt. split.
      * intros H. right. exact H.
      * intros H. inversion H; subst; [congruence | assumption].
Qed.

Lemma getUnionOf_spec_witness :
  Forall (returns_on (num 5)) [isString; isNumber]
  /\ returns_on (num 5) (getUnionOf [isString; isNumber])
  /\ (getUnionOf [isString; isNumber] (num 5) = Ok true <->
      Exists (fun c : TypeChecker => c (num 5) = Ok true) [isString; isNumber]).
Proof.
  assert (H : Forall (returns_on (num 5)) [isString; isNumber]).
  { repeat constructor; eexists; reflexivity. }
  split; [exact H|].
  exact (proj1 (proj2 (proj2 (getUnionOf_spec [isString; isNumber] (num 5)))) H).
Defined.

(** ** Intersection *)

Section IntersectionFacts.

Variable call_function : nat -> TypeChecker -> result value.

(** On a value that is not a function the call [v(c)] throws, so the
    intersection of at least one checker throws before any checker has
    been consulted. *)
Lemma getIntersectionOf_non_function
  (c : TypeChecker) (cs : list TypeChecker) (v : value) :
  isFunction v = Ok false ->
  getIntersectionOf call_function (c :: cs) v = Throw not_a_function.
Proof.
  intros H. unfold getIntersectionOf. simpl.
  destruct v; try reflexivity. discriminate H.
Qed.

(** On a function value the answer is made of what that function
    returns for each checker; the checkers themselves are never run. *)
Lemma getIntersectionOf_function (cs : list TypeChecker) (f : nat) :
  getIntersectionOf call_function cs (VFunction f) =
  every (fun c => r <- call_function f c ;; Ok (ToBoolean r)) cs.
Proof. reflexivity. Qed.

End IntersectionFacts.

(** C7: the intersection of no checkers answers [true] on every value. *)
Theorem getIntersectionOf_empty
  (call_function : nat -> TypeChecker -> result value) (v : value) :
  getIntersectionOf call_function [] v = Ok true.
Proof. reflexivity. Qed.

(** C1: on the three sample values of the specification the checker
    [getIntersectionOf(isObject, getMappedChecker({a: isNumber}))] does
    not answer at all: it evaluates [v(c)], the value applied to the
    checker, and throws a [TypeError] on [{a: 1}] (which both
    constituents accept), on [{a: "x"}] and on [null]; on a function
    value the answer is made of what that function returns for each
    checker, and no checker receives the value. *)
Theorem getIntersectionOf_applies_value_to_checker
  (call_function : nat -> TypeChecker -> result value) :
  isObject (object_literal [("a", num 1)]) = Ok true
  /\ getMappedChecker [("a", isNumber)] (object_literal [("a", num 1)]) = Ok true
  /\ getIntersectionOf call_function
       [isObject; getMappedChecker [("a", isNumber)]]
       (object_literal [("a", num 1)]) = Throw not_a_function
  /\ getIntersectionOf call_function
       [isObject; getMappedChecker [("a", isNumber)]]
       (object_literal [("a", VString "x")]) = Throw not_a_function
  /\ getIntersectionOf call_function
       [isObject; getMappedChecker [("a", isNumber)]]
       VNull = Throw not_a_function
  /\ (forall f checkers,
         getIntersectionOf call_function checkers (VFunction f)
         = every (fun c => r <- call_function f c ;; Ok (ToBoolean r)) checkers).
Proof. repeat split. Qed.

(** C2: a checker returned by [getIntersectionOf] for at least one
    constituent throws a [TypeError] on every value that is not a
    function, whatever the constituents are. *)
Theorem getIntersectionOf_throws
  (call_function : nat -> TypeChecker -> result value)
  (c : TypeChecker) (cs : list TypeChecker) (v : value) :
  isFunction v = Ok false ->
  getIntersectionOf call_function (c :: cs) v
  = Throw (TypeError "v is not a function").
Proof. apply getIntersectionOf_non_function. Qed.

Lemma getIntersectionOf_throws_witness :
  isFunction (num 1) = Ok false
  /\ getIntersectionOf (fun _ _ => Ok VUndefined) [isAny] (num 1)
     = Throw (TypeError "v is not a function").
Proof.
  split; [reflexivity|].
  exact (getIntersectionOf_throws (fun _ _ => Ok VUndefined) isAny [] (num 1) eq_refl).
Defined.

(** ** Mappings *)

Lemma get_absent (o : object) (k : propkey) :
  has_property o k = false -> get o k = VUndefined.
Proof.
  revert o.
  fix IH 1. intros [el ps [p|]]; simpl; intros H.
  - destruct (get_own (Obj el ps (Some p)) k); [discriminate H|].
    apply IH. exact H.
  - destruct (get_own (Obj el ps None) k); [discriminate H | reflexivity].
Qed.

Lemma mapping_get_key (mapping : Mapping) (k : string) :
  In k (map fst mapping) <-> exists c, mapping_get mapping k = Some c.
Proof.
  unfold mapping_get.
  induction mapping as [|[k0 c0] m IH]; simpl.
  - split; [intros [] | intros [c H]; discriminate H].
  - destruct (k0 =? k) eqn:E; simpl.
    + apply String.eqb_eq in E. split; [eauto | auto].
    + apply String.eqb_neq in E. rewrite <- IH. tauto.
Qed.

Lemma check_values_true (mapping : Mapping) (v : value) (keys : list string) :
  check_values mapping v keys = Ok true <->
  Forall (fun k => exists c, mapping_get mapping k = Some c
                             /\ c (get_property v k) = Ok true) keys.
Proof.
  induction keys as [|k keys IH]; simpl.
  - split; [constructor | reflexivity].
  - destruct (mapping_get mapping k) as [c|] eqn:Hk.
    + destruct (c (get_property v k)) as [[|]|e] eqn:Hc; simpl.
      * rewrite IH. split.
        -- intros H. constructor; eauto.
        -- intros H. inversion H; assumption.
      * split; [discriminate|]. intros H. inversion H as [|? ? (c' & E & Hc') ?].
        congruence.
      * split; [discriminate|]. intros H. inversion H as [|? ? (c' & E & Hc') ?].
        congruence.
    + split; [discriminate|]. intros H. inversion H as [|? ? (c' & E & _) ?].
      congruence.
Qed.

Lemma check_values_ext (mapping : Mapping) (v v' : value) (keys : list string) :
  (forall k, In k keys -> get_property v' k = get_property v k) ->
  check_values mapping v' keys = check_values mapping v keys.
Proof.
  induction keys as [|k keys IH]; simpl; intros H; [reflexivity|].
  rewrite (H k) by (left; reflexivity).
  rewrite IH by (intros k' Hk'; apply H; right; exact Hk').
  reflexivity.
Qed.

Lemma propkey_eqb_eq (a b : propkey) : propkey_eqb a b = true <-> a = b.
Proof.
  destruct a as [s|i], b as [t|j]; simpl.
  - rewrite String.eqb_eq. split; congruence.
  - split; discriminate.
  - split; discriminate.
  - rewrite Nat.eqb_eq. split; congruence.
Qed.

Lemma find_first (k : propkey) (l : list (property value)) (p : property value) :
  find (has_key k) l = Some p ->
  exists before after,
    l = (before ++ p :: after)%list
    /\ Forall (fun q => p_key q <> k) before
    /\ p_key p = k.
Proof.
  induction l as [|q l IH]; simpl; [discriminate|].
  destruct (has_key k q) eqn:Hq.
  - intros E. injection E as ->. exists [], l.
    split; [reflexivity|]. split; [constructor|].
    apply propkey_eqb_eq. exact Hq.
  - intros E. destruct (IH E) as (before & after & -> & Hb & Hp).
    exists (q :: before), after. split; [reflexivity|]. split; [|exact Hp].
    constructor; [|exact Hb].
    intros Hk. apply propkey_eqb_eq in Hk. unfold has_key in Hq. congruence.
Qed.

Lemma find_none (k : propkey) (l : list (property value)) :
  find (has_key k) l = None <-> Forall (fun q => p_key q <> k) l.
Proof.
  induction l as [|q l IH]; simpl.
  - split; [constructor | reflexivity].
  - destruct (has_key k q) eqn:Hq.
    + split; [discriminate|]. intros H. inversion H as [|? ? Hne _]; subst.
      apply propkey_eqb_eq in Hq. contradiction.
    + rewrite IH. split.
      * intros H. constructor; [|exact H].
        intros Hk. apply propkey_eqb_eq in Hk. unfold has_key in Hq. congruence.
      * intros H. inversion H; assumption.
Qed.

Lemma find_at (k : propkey) (before after : list (property value))
  (p : property value) :
  Forall (fun q => p_key q <> k) before -> p_key p = k ->
  find (has_key k) (before ++ p :: after) = Some p.
Proof.
  intros Hb Hp. induction Hb as [|q before Hq _ IH]; simpl.
  - replace (has_key k p) with true; [reflexivity|].
    symmetry. apply propkey_eqb_eq. exact Hp.
  - destruct (has_key k q) eqn:E; [|exact IH].
    apply propkey_eqb_eq in E. contradiction.
Qed.

(** [get] finds what [property_lookup] tells, and nothing else. *)
Lemma get_property_lookup (o : object) (k : string) (x : value) :
  get o (KString k) = x <-> property_lookup o k x.
Proof.
  split.
  - intros <-. revert o. fix IH 1. intros [el ps pr].
    destruct (find (has_key (KString k)) (own_properties (Obj el ps pr)))
      as [p|] eqn:Hfind.
    + replace (get (Obj el ps pr) (KString k)) with (p_value p).
      * destruct (find_first _ _ _ Hfind) as (before & after & Hl & Hb & Hp).
        exact (lookup_own _ _ before after p Hl Hb Hp).
      * destruct pr; simpl; unfold get_own; rewrite Hfind; reflexivity.
    + apply find_none in Hfind as Hnone.
      destruct pr as [proto|].
      * replace (get (Obj el ps (Some proto)) (KString k))
          with (get proto (KString k)).
        -- apply lookup_inherited; [exact Hnone | apply IH].
        -- simpl. unfold get_own. rewrite Hfind. reflexivity.
      * replace (get (Obj el ps None) (KString k)) with VUndefined.
        -- apply lookup_missing. exact Hnone.
        -- simpl. unfold get_own. rewrite Hfind. reflexivity.
  - induction 1 as [o k before after p Hl Hb Hp
                   | el ps proto k x Hnone _ IH
                   | el ps k Hnone].
    + assert (Hfind : find (has_key (KString k)) (own_properties o) = Some p).
      { rewrite Hl. apply find_at; assumption. }
      destruct o as [el ps [proto|]]; simpl; unfold get_own;
        rewrite Hfind; reflexivity.
    + apply find_none in Hnone. simpl. unfold get_own. rewrite Hnone. exact IH.
    + apply find_none in Hnone. simpl. unfold get_own. rewrite Hnone. reflexivity.
Qed.

(** C5, the claim refuted: the key [toString] is absent from the object
    [{}], and [isUndefined] accepts [undefined], the value the claim
    says is passed for an absent key; yet the mapped checker of
    [{toString: isUndefined}] rejects [{}], because [v[k]] finds the
    method that [{}] inherits. *)
Lemma getMappedChecker_inherited_key_counterexample :
  get_own empty_object (KString "toString") = None
  /\ own_property_or_undefined (VObject empty_object) "toString" = VUndefined
  /\ isUndefined VUndefined = Ok true
  /\ get_property (VObject empty_object) "toString"
     = VFunction Object_prototype_toString
  /\ getMappedChecker [("toString", isUndefined)] (VObject empty_object) = Ok false.
Proof. repeat split. Qed.

(** C5, amended: the mapped checker answers [true] exactly when the
    value is an object (not [null]) and every declared key's checker
    accepts what [v[k]] finds: the value's own property at that key,
    else the property inherited through the prototype chain, else
    [undefined]; so a declared key that is neither an own nor an
    inherited property is passed as [undefined].  Objects that agree on
    the declared keys get the same answer, whatever other keys they
    carry, and a value that is not an object is rejected whatever the
    checkers of the mapping would do.  The samples of the specification
    hold. *)
Theorem getMappedChecker_spec (mapping : Mapping) (v : value) :
  (getMappedChecker mapping v = Ok true <->
   exists o,
     v = VObject o
     /\ forall k c, mapping_get mapping k = Some c ->
                    exists x, property_lookup o k x /\ c x = Ok true)
  /\ (forall o k x, get_property (VObject o) k = x <-> property_lookup o k x)
  /\ (forall o k, has_property o (KString k) = false ->
                  property_lookup o k VUndefined)
  /\ (forall v', isObject v' = isObject v ->
                 (forall k, In k (map fst mapping) ->
                            get_property v' k = get_property v k) ->
                 getMappedChecker mapping v' = getMappedChecker mapping v)
  /\ (isObject v = Ok false -> getMappedChecker mapping v = Ok false)
  /\ getMappedChecker [("a", isNumber); ("b", isString)]
       (object_literal [("a", num 1); ("b", VString "x"); ("c", VBoolean true)])
     = Ok true
  /\ getMappedChecker [("a", isNumber); ("b", isString)]
       (object_literal [("a", num 1)]) = Ok false
  /\ getMappedChecker [("a", isNumber); ("b", isString)] VNull = Ok false.
Proof.
  split; [|split; [|split; [|split; [|split; [|repeat split]]]]].
  - unfold getMappedChecker.
    destruct (isObject v) as [[|]|e] eqn:Hobj; simpl.
    + destruct v as [| | | | | | | | o]; try discriminate Hobj.
      rewrite check_values_true, Forall_forall. split.
      * intros H. exists o. split; [reflexivity|]. intros k c Hk.
        destruct (H k) as (c' & E & Hc').
        { apply mapping_get_key. eauto. }
        exists (get o (KString k)). split; [apply get_property_lookup; reflexivity|].
        simpl in Hc'. congruence.
      * intros (o' & E & H) k Hk. injection E as <-.
        apply mapping_get_key in Hk. destruct Hk as [c Hc].
        exists c. split; [exact Hc|].
        destruct (H k c Hc) as (x & Hx & Hcx).
        apply get_property_lookup in Hx. simpl. rewrite Hx. exact Hcx.
    + split; [discriminate|]. intros (o & -> & _). discriminate Hobj.
    + split; [discriminate|]. intros (o & -> & _). discriminate Hobj.
  - intros o k x. simpl. apply get_property_lookup.
  - intros o k H. apply get_property_lookup. apply get_absent. exact H.
  - intros v' Hobj Hkeys. unfold getMappedChecker. rewrite Hobj.
    destruct (isObject v) as [[|]|e]; simpl; try reflexivity.
    apply check_values_ext. exact Hkeys.
  - intros H. unfold getMappedChecker. rewrite H. reflexivity.
Qed.

Lemma getMappedChecker_spec_witness :
  isObject VNull = Ok false
  /\ getMappedChecker [("a", throwing)] VNull = Ok false.
Proof.
  split; [reflexivity|].
  exact (proj1 (proj2 (proj2 (proj2 (proj2
           (getMappedChecker_spec [("a", throwing)] VNull))))) eq_refl).
Defined.

(** The samples of the specification. *)
Example getMappedChecker_samples :
  getMappedChecker [("a", isNumber); ("b", isString)]
    (object_literal [("a", num 1); ("b", VString "x"); ("c", VBoolean true)])
  = Ok true
  /\ getMappedChecker [("a", isNumber); ("b", isString)]
       (object_literal [("a", num 1)]) = Ok false
  /\ getMappedChecker [("a", isNumber); ("b", isString)] VNull = Ok false
  /\ getMappedChecker [("a", isNumber); ("b", isUndefined)]
       (object_literal [("a", num 1)]) = Ok true.
Proof. repeat split. Qed.

(** ** Records *)

Lemma keys_of_strings (v x : value) :
  In x (keys_of v) -> exists s, x = VString s.
Proof.
  destruct v; simpl; try contradiction.
  rewrite in_map_iff. intros (s & <- & _). eauto.
Qed.

Lemma own_enumerable_props
  (el : option (list value)) (ps ps' : list (property value))
  (pr pr' : option object) :
  filter enumerable_string_key ps = filter enumerable_string_key ps' ->
  own_enumerable (Obj el ps pr) = own_enumerable (Obj el ps' pr').
Proof.
  intros H. unfold own_enumerable. destruct el as [l|]; simpl.
  - rewrite !filter_app. simpl. rewrite H. reflexivity.
  - exact H.
Qed.

(** C10: the key checker of a record checker is consulted on strings
    only (two key checkers that agree on the strings give the same
    record checker), properties that are symbol-keyed or not enumerable
    play no part, and a key checker that rejects every string makes the
    record checker reject every object with at least one own enumerable
    string key and accept every object without, the empty object among
    them. *)
Theorem getRecordChecker_keys_are_strings (keyChecker valueChecker : TypeChecker) :
  (forall keyChecker' : TypeChecker,
      (forall s, keyChecker' (VString s) = keyChecker (VString s)) ->
      forall v, getRecordChecker keyChecker' valueChecker v
                = getRecordChecker keyChecker valueChecker v)
  /\ (forall el ps ps' pr pr',
         filter enumerable_string_key ps = filter enumerable_string_key ps' ->
         getRecordChecker keyChecker valueChecker (VObject (Obj el ps pr))
         = getRecordChecker keyChecker valueChecker (VObject (Obj el ps' pr')))
  /\ ((forall s, keyChecker (VString s) = Ok false) ->
      (forall o, Object_keys o <> [] ->
                 getRecordChecker keyChecker valueChecker (VObject o) = Ok false)
      /\ (forall o, Object_keys o = [] ->
                    getRecordChecker keyChecker valueChecker (VObject o) = Ok true)
      /\ getRecordChecker keyChecker valueChecker (object_literal []) = Ok true).
Proof.
  split; [|split].
  - intros keyChecker' Hagree v. unfold getRecordChecker.
    destruct (isObject v) as [[|]|e]; simpl; try reflexivity.
    rewrite (every_ext keyChecker' keyChecker); [reflexivity|].
    intros x Hx. apply keys_of_strings in Hx. destruct Hx as [s ->].
    apply Hagree.
  - intros el ps ps' pr pr' H. unfold getRecordChecker. simpl.
    unfold Object_keys, Object_values.
    rewrite (own_enumerable_props el ps ps' pr pr' H). reflexivity.
  - intros Hreject.
    assert (Hempty : forall o, Object_keys o = [] ->
              getRecordChecker keyChecker valueChecker (VObject o) = Ok true).
    { intros o Hkeys. unfold getRecordChecker. simpl.
      rewrite Hkeys. simpl.
      unfold Object_keys in Hkeys. apply map_eq_nil in Hkeys.
      unfold Object_values. rewrite Hkeys. reflexivity. }
    split; [|split].
    + intros o Hkeys. unfold getRecordChecker. simpl.
      destruct (Object_keys o) as [|k keys]; [contradiction Hkeys; reflexivity|].
      simpl. rewrite Hreject. reflexivity.
    + exact Hempty.
    + apply Hempty. reflexivity.
Qed.

Lemma getRecordChecker_keys_are_strings_witness :
  (forall s, isNumber (VString s) = Ok false)
  /\ Object_keys (Obj None [mkProperty (KString "a") true (num 1)] None) <> []
  /\ getRecordChecker isNumber isNumber (object_literal [("a", num 1)]) = Ok false.
Proof.
  assert (H : forall s, isNumber (VString s) = Ok false) by reflexivity.
  split; [exact H|].
  assert (K : Object_keys (Obj None [mkProperty (KString "a") true (num 1)] None) <> [])
    by discriminate.
  split; [exact K|].
  exact (proj1 (proj2 (proj2 (getRecordChecker_keys_are_strings isNumber isNumber)) H)
           (Obj None [mkProperty (KString "a") true (num 1)] None) K).
Defined.

(** The samples of the specification, an Array, and an object whose
    only property is symbol-keyed. *)
Example getRecordChecker_samples :
  getRecordChecker isString isNumber (object_literal [("a", num 1); ("b", num 2)])
  = Ok true
  /\ getRecordChecker isString isNumber
       (object_literal [("a", num 1); ("b", VString "x")]) = Ok false
  /\ getRecordChecker isString isNumber (object_literal []) = Ok true
  /\ getRecordChecker isNumber isNumber (array_literal [num 1]) = Ok false
  /\ getRecordChecker isNumber isNumber
       (VObject (Obj None [mkProperty (KSymbol 0) true (num 1)] None)) = Ok true.
Proof. repeat split. Qed.

(** ** Serialisation *)

Lemma SerializeJSONProperty_array (l : list value) ps pr :
  SerializeJSONProperty (VObject (Obj (Some l) ps pr)) =
  (parts <- serialize_elements l ;;
   Ok (Some ("[" ++ String.concat "," parts ++ "]"))).
Proof.
  reflexivity.
Qed.

Lemma SerializeJSONProperty_object (ps : list (property value)) pr :
  SerializeJSONProperty (VObject (Obj None ps pr)) =
  (parts <- serialize_members ps ;;
   Ok (Some ("{" ++ String.concat "," parts ++ "}"))).
Proof.
  reflexivity.
Qed.

Lemma reaches_bigint_array (l : list value) ps pr :
  reaches_bigint (VObject (Obj (Some l) ps pr)) = existsb reaches_bigint l.
Proof.
  simpl. induction l as [|x l IH]; simpl; [reflexivity|]. rewrite <- IH. reflexivity.
Qed.

Lemma reaches_bigint_object (ps : list (property value)) pr :
  reaches_bigint (VObject (Obj None ps pr)) =
  existsb (fun p => enumerable_string_key p && reaches_bigint (p_value p)) ps.
Proof.
  simpl. induction ps as [|p ps IH]; simpl; [reflexivity|]. rewrite <- IH. reflexivity.
Qed.

Lemma serialize_elements_serializes (l : list value) :
  Forall serializes l ->
  if existsb reaches_bigint l
  then serialize_elements l = Throw BigInt_not_serializable
  else exists parts, serialize_elements l = Ok parts.
Proof.
  induction 1 as [|x l Hx _ IH]; simpl.
  - eauto.
  - unfold serializes in Hx. destruct (reaches_bigint x); simpl.
    + rewrite Hx. reflexivity.
    + destruct Hx as [r ->]. simpl.
      destruct (existsb reaches_bigint l).
      * rewrite IH. reflexivity.
      * destruct IH as [parts ->]. simpl. eauto.
Qed.

Lemma serialize_members_serializes (ps : list (property value)) :
  Forall (fun p => serializes (p_value p)) ps ->
  if existsb (fun p => enumerable_string_key p && reaches_bigint (p_value p)) ps
  then serialize_members ps = Throw BigInt_not_serializable
  else exists parts, serialize_members ps = Ok parts.
Proof.
  induction 1 as [|p ps Hp _ IH]; simpl.
  - eauto.
  - destruct (enumerable_string_key p); simpl; [|exact IH].
    unfold serializes in Hp. destruct (reaches_bigint (p_value p)); simpl.
    + rewrite Hp. reflexivity.
    + destruct Hp as [r ->]. simpl.
      destruct (existsb _ ps).
      * rewrite IH. reflexivity.
      * destruct IH as [parts ->]. simpl. eauto.
Qed.

(** The serialisation throws exactly when it reaches a BigInt, and
    answers otherwise. *)
Lemma SerializeJSONProperty_serializes (v : value) : serializes v.
Proof.
  induction v as [| | [|] | [| |] | | | | | el ps pr Hel Hps]
    using value_contents_ind;
    try (unfold serializes; simpl; eauto; fail).
  unfold serializes. destruct el as [l|].
  - rewrite reaches_bigint_array, SerializeJSONProperty_array.
    pose proof (serialize_elements_serializes l Hel) as Hl.
    destruct (existsb reaches_bigint l).
    + rewrite Hl. reflexivity.
    + destruct Hl as [parts ->]. simpl. eauto.
  - rewrite reaches_bigint_object, SerializeJSONProperty_object.
    pose proof (serialize_members_serializes ps Hps) as Hm.
    destruct (existsb _ ps).
    + rewrite Hm. reflexivity.
    + destruct Hm as [parts ->]. simpl. eauto.
Qed.

(** ** cast *)

Lemma cast_accepts (checker : TypeChecker) (name : option string) (v : value) :
  checker v = Ok true -> cast checker name v = Ok v.
Proof. intros H. unfold cast. rewrite H. reflexivity. Qed.

Lemma cast_rejects (checker : TypeChecker) (name : option string) (v : value) :
  checker v = Ok false ->
  cast checker name v =
  (r <- JSON_stringify v ;;
   Throw (TypeError (message_by_nonempty_name name (template_text r)))).
Proof.
  intros H. unfold cast. rewrite H. simpl.
  destruct name as [[|c n]|]; reflexivity.
Qed.

(** C3, the claim refuted: with the empty string supplied as the name,
    the message of a rejection is the one for a missing name. *)
Lemma cast_empty_name_counterexample :
  isNumber (VBoolean true) = Ok false
  /\ JSON_stringify (VBoolean true) = Ok (Some "true")
  /\ cast isNumber (Some "") (VBoolean true)
     = Throw (TypeError "value true is of an invalid type")
  /\ message_by_supplied_name (Some "") "true" = "value true is not of type "
  /\ cast isNumber (Some "") (VBoolean true)
     <> Throw (TypeError (message_by_supplied_name (Some "") "true")).
Proof. repeat split. discriminate. Qed.

(** C3, amended: [cast] returns an accepted value as it is; for a
    rejected value whose serialisation answers, it throws a [TypeError]
    whose message holds the rendering of the value (the text
    [undefined] when the serialisation answers [undefined]) and reads
    "is not of type <name>" when a non-empty name was supplied, "is of
    an invalid type" when no name or the empty name was; when the
    serialisation of the rejected value throws, that exception is what
    [cast] throws.  Either way a rejection ends in a [TypeError]. *)
Theorem cast_spec (checker : TypeChecker) (name : option string) (v : value) :
  (checker v = Ok true -> cast checker name v = Ok v)
  /\ (checker v = Ok false ->
      forall r, JSON_stringify v = Ok r ->
                cast checker name v
                = Throw (TypeError (message_by_nonempty_name name (template_text r))))
  /\ (checker v = Ok false ->
      forall e, JSON_stringify v = Throw e -> cast checker name v = Throw e)
  /\ (checker v = Ok false ->
      exists message, cast checker name v = Throw (TypeError message)).
Proof.
  split; [apply cast_accepts|].
  split; [|split].
  - intros H r Hr. rewrite (cast_rejects _ _ _ H), Hr. reflexivity.
  - intros H e He. rewrite (cast_rejects _ _ _ H), He. reflexivity.
  - intros H. rewrite (cast_rejects _ _ _ H). unfold JSON_stringify.
    pose proof (SerializeJSONProperty_serializes v) as Hs. unfold serializes in Hs.
    destruct (reaches_bigint v).
    + rewrite Hs. simpl. unfold BigInt_not_serializable. eauto.
    + destruct Hs as [r ->]. simpl. eauto.
Qed.

Lemma cast_spec_witness :
  isNumber (num 5) = Ok true
  /\ cast isNumber None (num 5) = Ok (num 5)
  /\ isNumber (VString "x") = Ok false
  /\ JSON_stringify (VString "x") = Ok (Some (QuoteJSONString "x"))
  /\ cast isNumber (Some "number") (VString "x")
     = Throw (TypeError ("value " ++ QuoteJSONString "x" ++ " is not of type number")).
Proof.
  split; [reflexivity|].
  split; [exact (proj1 (cast_spec isNumber None (num 5)) eq_refl)|].
  split; [reflexivity|].
  split; [reflexivity|].
  exact (proj1 (proj2 (cast_spec isNumber (Some "number") (VString "x")))
           eq_refl (Some (QuoteJSONString "x")) eq_refl).
Defined.




(** ** Regular expressions: what [RegExp_test] decides *)

Lemma append_nil_r (s : string) : s ++ "" = s.
Proof. induction s as [|c s IH]; simpl; congruence. Qed.

Lemma append_assoc (s t u : string) : (s ++ t) ++ u = s ++ t ++ u.
Proof. induction s as [|c s IH]; simpl; congruence. Qed.

Lemma append_eq_nil (s t : string) : s ++ t = "" -> s = "" /\ t = "".
Proof. destruct s; simpl; [auto | discriminate]. Qed.

Lemma accepts_empty_matches (r : regex) :
  accepts_empty r = true <-> matches r "".
Proof.
  split.
  - induction r; simpl; intros H; try discriminate H.
    + constructor.
    + apply andb_true_iff in H. destruct H as [H1 H2].
      change "" with ("" ++ ""). constructor; auto.
    + apply orb_true_iff in H. destruct H as [H|H].
      * apply matches_alt_l; auto.
      * apply matches_alt_r; auto.
    + constructor.
  - intros H. remember "" as s eqn:Es.
    induction H; simpl; try discriminate Es; try reflexivity.
    + apply append_eq_nil in Es. destruct Es as [-> ->].
      rewrite IHmatches1, IHmatches2; reflexivity.
    + rewrite IHmatches by assumption. reflexivity.
    + rewrite IHmatches by assumption. apply orb_true_r.
Qed.

(** A non-empty match of [r*] starts with a non-empty match of [r]. *)
Lemma matches_star_head (r : regex) (c : ascii) (s : string) :
  matches (Star r) (String c s) ->
  exists u w, s = u ++ w /\ matches r (String c u) /\ matches (Star r) w.
Proof.
  intros H. remember (Star r) as r' eqn:Er. remember (String c s) as t eqn:Et.
  induction H; try discriminate Er; try discriminate Et.
  injection Er as ->.
  destruct u as [|d u]; simpl in Et.
  - apply IHmatches2; auto.
  - injection Et as -> <-. exists u, w. auto.
Qed.

Lemma derive_matches (c : ascii) (r : regex) (s : string) :
  matches (derive c r) s <-> matches r (String c s).
Proof.
  revert s. induction r; intros w; simpl.
  - split; intros H; inversion H.
  - split; intros H; inversion H.
  - destruct (Ascii.eqb_spec c c0) as [->|Hne].
    + split; intros H; inversion H; subst; constructor.
    + split; intros H; inversion H; subst. contradiction Hne. reflexivity.
  - destruct (in_range lo hi c) eqn:Hin.
    + split; intros H; inversion H; subst; constructor; assumption.
    + split; intros H; inversion H; subst. congruence.
  - split.
    + intros H.
      assert (Hseq : matches (Seq (derive c r1) r2) w ->
                     matches (Seq r1 r2) (String c w)).
      { intros H'. inversion H'; subst.
        change (String c (u ++ w0)) with (String c u ++ w0).
        constructor; [apply IHr1|]; assumption. }
      destruct (accepts_empty r1) eqn:He.
      * inversion H; subst; [auto|].
        change (String c w) with ("" ++ String c w).
        constructor; [apply accepts_empty_matches; exact He | apply IHr2; assumption].
      * auto.
    + intros H. inversion H as [| | | ? ? u w0 Hu Hw E1 E2 | | | |]; subst.
      destruct u as [|d u]; simpl in E2.
      * subst w0. apply accepts_empty_matches in Hu. rewrite Hu.
        apply matches_alt_r. apply IHr2. exact Hw.
      * injection E2 as -> <-.
        assert (Hseq : matches (Seq (derive c r1) r2) (u ++ w0)).
        { constructor; [apply IHr1|]; assumption. }
        destruct (accepts_empty r1); [apply matches_alt_l|]; exact Hseq.
  - split; intros H; inversion H; subst.
    + apply matches_alt_l. apply IHr1. assumption.
    + apply matches_alt_r. apply IHr2. assumption.
    + apply matches_alt_l. apply IHr1. assumption.
    + apply matches_alt_r. apply IHr2. assumption.
  - split.
    + intros H. inversion H; subst.
      change (String c (u ++ w0)) with (String c u ++ w0).
      constructor; [apply IHr|]; assumption.
    + intros H. apply matches_star_head in H.
      destruct H as (u & w0 & -> & Hu & Hw).
      constructor; [apply IHr|]; assumption.
Qed.

(** [RegExp_test] decides the match of the whole string. *)
Lemma RegExp_test_matches (r : regex) (s : string) :
  RegExp_test r s = true <-> matches r s.
Proof.
  revert r. induction s as [|c s IH]; intros r; simpl.
  - apply accepts_empty_matches.
  - rewrite IH. apply derive_matches.
Qed.

(** ** The numeric-literal pattern *)

Lemma matches_Seq (r s : regex) (w : string) :
  matches (Seq r s) w <-> exists u v, w = u ++ v /\ matches r u /\ matches s v.
Proof.
  split.
  - intros H. inversion H; subst. eauto.
  - intros (u & v & -> & Hu & Hv). constructor; assumption.
Qed.

Lemma matches_Opt (r : regex) (w : string) :
  matches (Opt r) w <-> optional (matches r) w.
Proof.
  unfold Opt, optional. split.
  - intros H. inversion H; subst; [right; assumption|].
    match goal with H' : matches Eps _ |- _ => inversion H' end. left. reflexivity.
  - intros [->|H]; [apply matches_alt_r; constructor | apply matches_alt_l; exact H].
Qed.

Lemma matches_Chr (c : ascii) (w : string) :
  matches (Chr c) w <-> w = String c "".
Proof.
  split.
  - intros H. inversion H. reflexivity.
  - intros ->. constructor.
Qed.

Lemma matches_digit (w : string) :
  matches digit w <-> exists c, w = String c "" /\ is_digit c = true.
Proof.
  unfold digit, is_digit. split.
  - intros H. inversion H; subst. eauto.
  - intros (c & -> & Hc). constructor. exact Hc.
Qed.

Lemma matches_Star_digit (w : string) :
  matches (Star digit) w <-> all_digits w = true.
Proof.
  split.
  - intros H. remember (Star digit) as r eqn:Er.
    induction H; try discriminate Er; [reflexivity|].
    injection Er as ->.
    apply matches_digit in H. destruct H as (c & -> & Hc).
    simpl. rewrite Hc. simpl. apply IHmatches2. reflexivity.
  - induction w as [|c w IH]; simpl; intros H.
    + constructor.
    + apply andb_true_iff in H. destruct H as [Hc Hw].
      change (String c w) with (String c "" ++ w).
      constructor; [apply matches_digit; eauto | auto].
Qed.

Lemma matches_Plus_digit (w : string) :
  matches (Plus digit) w <-> digits w.
Proof.
  unfold Plus, digits. rewrite matches_Seq. split.
  - intros (u & v & -> & Hu & Hv).
    apply matches_digit in Hu. destruct Hu as (c & -> & Hc).
    apply matches_Star_digit in Hv. simpl. rewrite Hc, Hv.
    split; [discriminate | reflexivity].
  - intros [Hne Hall]. destruct w as [|c w]; [contradiction Hne; reflexivity|].
    simpl in Hall. apply andb_true_iff in Hall. destruct Hall as [Hc Hw].
    exists (String c ""), w. split; [reflexivity|].
    split; [apply matches_digit; eauto | apply matches_Star_digit; exact Hw].
Qed.

Lemma optional_iff (P Q : string -> Prop) (w : string) :
  (forall s, P s <-> Q s) -> optional P w <-> optional Q w.
Proof. intros H. unfold optional. rewrite H. reflexivity. Qed.

Lemma matches_minus (w : string) : matches (Opt (Chr "-")) w <-> optional minus w.
Proof. rewrite matches_Opt. apply optional_iff. intros s. apply matches_Chr. Qed.

Lemma matches_fraction (w : string) :
  matches (Seq (Chr ".") (Plus digit)) w <-> fraction w.
Proof.
  unfold fraction. rewrite matches_Seq. split.
  - intros (u & v & -> & Hu & Hv). apply matches_Chr in Hu. subst u.
    apply matches_Plus_digit in Hv. eauto.
  - intros (d & -> & Hd). exists ".", d.
    split; [reflexivity|]. split; [constructor | apply matches_Plus_digit; exact Hd].
Qed.

Lemma matches_exponent (w : string) :
  matches (Seq (Chr "e") (Seq (Opt (Chr "-")) (Plus digit))) w <-> exponent w.
Proof.
  unfold exponent. rewrite matches_Seq. split.
  - intros (u & v & -> & Hu & Hv). apply matches_Chr in Hu. subst u.
    apply matches_Seq in Hv. destruct Hv as (sg & d & -> & Hsg & Hd).
    apply matches_minus in Hsg. apply matches_Plus_digit in Hd. eauto.
  - intros (sg & d & -> & Hsg & Hd). exists "e", (sg ++ d).
    split; [reflexivity|]. split; [constructor|].
    apply matches_Seq. exists sg, d.
    split; [reflexivity|].
    split; [apply matches_minus; exact Hsg | apply matches_Plus_digit; exact Hd].
Qed.

(** The keys [NUMBER_REGEX] accepts are the numeric literals. *)
Lemma NUMBER_REGEX_numeric_literal (s : string) :
  RegExp_test NUMBER_REGEX s = true <-> numeric_literal s.
Proof.
  rewrite RegExp_test_matches. unfold NUMBER_REGEX, numeric_literal. split.
  - intros H.
    apply matches_Seq in H. destruct H as (sign & w1 & -> & Hsign & H).
    apply matches_Seq in H. destruct H as (int & w2 & -> & Hint & H).
    apply matches_Seq in H. destruct H as (frac & exp & -> & Hfrac & Hexp).
    exists sign, int, frac, exp.
    split; [reflexivity|].
    split; [apply matches_minus; exact Hsign|].
    split; [apply matches_Plus_digit; exact Hint|].
    split.
    + apply matches_Opt in Hfrac.
      revert Hfrac. apply optional_iff. intros w. symmetry. apply matches_fraction.
    + apply matches_Opt in Hexp.
      revert Hexp. apply optional_iff. intros w. symmetry. apply matches_exponent.
  - intros (sign & int & frac & exp & -> & Hsign & Hint & Hfrac & Hexp).
    constructor; [apply matches_minus; exact Hsign|].
    constructor; [apply matches_Plus_digit; exact Hint|].
    constructor; apply matches_Opt.
    + revert Hfrac. apply optional_iff. intros w. apply matches_fraction.
    + revert Hexp. apply optional_iff. intros w. apply matches_exponent.
Qed.

(** ** Enums *)

Lemma enum_get_key (enumType : Enum) (k : string) :
  In k (enum_keys enumType) <-> exists m, enum_get enumType k = Some m.
Proof.
  unfold enum_get, enum_keys.
  induction enumType as [|[k0 m0] e IH]; simpl.
  - split; [intros [] | intros [m H]; discriminate H].
  - destruct (k0 =? k) eqn:E; simpl.
    + apply String.eqb_eq in E. split; [eauto | auto].
    + apply String.eqb_neq in E. rewrite <- IH. tauto.
Qed.

Lemma same_value_zero_strict (v : value) (l : literal) :
  same_value_zero v l = true <->
  strict_equals v l = true \/ (v = VNumber NaN /\ l = LNumber NaN).
Proof.
  split.
  - destruct v as [| | | [| |] | | | | |]; destruct l as [| | [| |] |];
      simpl; intros H; auto.
  - intros [H | [-> ->]]; [|reflexivity].
    destruct v as [| | | [| |] | | | | |]; destruct l as [| | [| |] |];
      simpl in *; auto.
Qed.

(** C6, the claim refuted: for the enum [{A: NaN}] the checker accepts
    [NaN], which strictly equals no candidate value. *)
Lemma getEnumChecker_NaN_counterexample :
  getEnumChecker [("A", ENumber NaN)] (VNumber NaN) = Ok true
  /\ ~ strictly_equals_a_candidate [("A", ENumber NaN)] (VNumber NaN).
Proof.
  split; [reflexivity|].
  intros (m & (k & Hk & _ & Hget) & Heq).
  destruct Hk as [<-|[]]. injection Hget as <-. discriminate Heq.
Qed.

(** C6, amended: the candidate values are the values of exactly those
    keys that are not numeric literals, and the checker accepts a value
    if and only if it is the same as one of them by the comparison of
    [includes] (SameValueZero): strict equality, or both [NaN].  For
    [{Red: 0, Green: 1}] with its reverse aliases it accepts [0] and
    [1] and rejects [2] and ["Red"]. *)
Theorem getEnumChecker_spec (enumType : Enum) (v : value) :
  (getEnumChecker enumType v = Ok true <->
   exists m, candidate enumType m
             /\ (strict_equals v (literal_of_member m) = true
                 \/ (v = VNumber NaN /\ m = ENumber NaN)))
  /\ (getEnumChecker enumType v = Ok false \/ getEnumChecker enumType v = Ok true)
  /\ getEnumChecker Red_Green (num 0) = Ok true
  /\ getEnumChecker Red_Green (num 1) = Ok true
  /\ getEnumChecker Red_Green (num 2) = Ok false
  /\ getEnumChecker Red_Green (VString "Red") = Ok false.
Proof.
  split; [|split; [|repeat split]].
  - unfold getEnumChecker, includes, enum_values, candidate.
    split.
    + intros H. injection H as H.
      apply existsb_exists in H. destruct H as (c & Hin & Hc).
      apply in_map_iff in Hin. destruct Hin as (k & Hget & Hk).
      apply filter_In in Hk. destruct Hk as [Hk Hre].
      apply negb_true_iff in Hre.
      destruct (proj1 (enum_get_key enumType k) Hk) as [m Hm].
      rewrite Hm in Hget. subst c.
      exists m. split.
      * exists k. split; [exact Hk|]. split; [|exact Hm].
        intros Hlit. apply NUMBER_REGEX_numeric_literal in Hlit. congruence.
      * apply same_value_zero_strict in Hc. destruct Hc as [Hc|[-> Hc]]; [auto|].
        right. split; [reflexivity|].
        destruct m; simpl in Hc; [discriminate Hc | congruence].
    + intros (m & (k & Hk & Hlit & Hget) & Hsame).
      f_equal. apply existsb_exists. exists (Some m). split.
      * apply in_map_iff. exists k. split; [exact Hget|].
        apply filter_In. split; [exact Hk|].
        apply negb_true_iff.
        destruct (RegExp_test NUMBER_REGEX k) eqn:Hre; [|reflexivity].
        contradiction Hlit. apply NUMBER_REGEX_numeric_literal. exact Hre.
      * apply same_value_zero_strict.
        destruct Hsame as [H|[-> ->]]; [left; exact H | right; auto].
  - unfold getEnumChecker. destruct (includes (enum_values enumType) v); auto.
Qed.

(** ** Checkers that always answer *)

Lemma every_returns {A : Type} (f : A -> result bool) (l : list A) :
  Forall (fun x => exists b, f x = Ok b) l -> exists b, every f l = Ok b.
Proof.
  induction 1 as [|x l [b Hb] _ [b' IH]]; simpl; [eauto|].
  rewrite Hb. simpl. destruct b; eauto.
Qed.

Lemma every_total (c : TypeChecker) (l : list value) :
  total c -> exists b, every c l = Ok b.
Proof.
  intros Hc. apply every_returns. apply Forall_forall. intros x _. apply Hc.
Qed.

Lemma isNever_total : total isNever.
Proof. intros v. exists false. reflexivity. Qed.

Lemma isAny_total : total isAny.
Proof. intros v. exists true. reflexivity. Qed.

Lemma primitive_checker_total (k : category) : total (primitive_checker k).
Proof. intros v. destruct k; eexists; reflexivity. Qed.

Lemma getUnionOf_total (checkers : list TypeChecker) :
  Forall total checkers -> total (getUnionOf checkers).
Proof.
  intros H v. unfold returns_on.
  induction H as [|c cs Hc _ IH]; simpl; [eauto|].
  destruct (Hc v) as [b ->]. simpl. destruct b; eauto.
Qed.

Lemma getArrayChecker_total
  (call_method : nat -> value -> TypeChecker -> result value)
  (checker : TypeChecker) (v : value) :
  total checker ->
  get_property v "every" = VFunction Array_prototype_every ->
  returns_on v (getArrayChecker call_method checker).
Proof.
  intros H Hevery. unfold returns_on, getArrayChecker, call_every.
  destruct (Array_isArray v); [|eauto].
  rewrite Hevery. simpl. apply every_total. exact H.
Qed.

Lemma mapping_get_In (mapping : Mapping) (k : string) (c : TypeChecker) :
  mapping_get mapping k = Some c -> In c (map snd mapping).
Proof.
  unfold mapping_get.
  induction mapping as [|[k0 c0] m IH]; simpl; [discriminate|].
  destruct (k0 =? k); simpl.
  - intros H. injection H as ->. left. reflexivity.
  - intros H. right. apply IH. exact H.
Qed.

Lemma getMappedChecker_total (mapping : Mapping) :
  Forall total (map snd mapping) -> total (getMappedChecker mapping).
Proof.
  intros H v. unfold returns_on, getMappedChecker.
  destruct (isObject v) as [[|]|e] eqn:Hobj; try discriminate Hobj; simpl; eauto.
  assert (Hkeys : forall keys, incl keys (map fst mapping) ->
                    exists b, check_values mapping v keys = Ok b).
  { induction keys as [|k keys IH]; simpl; intros Hincl; [eauto|].
    destruct (proj1 (mapping_get_key mapping k)) as [c Hc].
    { apply Hincl. left. reflexivity. }
    rewrite Hc.
    rewrite Forall_forall in H.
    destruct (H c (mapping_get_In _ _ _ Hc) (get_property v k)) as [b ->].
    simpl. destruct b; simpl; [|eauto].
    apply IH. intros k' Hk'. apply Hincl. right. exact Hk'. }
  apply Hkeys. apply incl_refl.
Qed.

Lemma getRecordChecker_total (keyChecker valueChecker : TypeChecker) :
  total keyChecker -> total valueChecker ->
  total (getRecordChecker keyChecker valueChecker).
Proof.
  intros Hk Hv v. unfold returns_on, getRecordChecker.
  destruct (isObject v) as [[|]|e] eqn:Hobj; try discriminate Hobj; simpl; eauto.
  destruct (every_total keyChecker (keys_of v) Hk) as [b ->]. simpl.
  destruct b; [apply every_total; exact Hv | eauto].
Qed.

Lemma getLiteralChecker_total (expected : literal) :
  total (getLiteralChecker expected).
Proof. intros v. eexists. reflexivity. Qed.

Lemma getEnumChecker_total (enumType : Enum) : total (getEnumChecker enumType).
Proof. intros v. eexists. reflexivity. Qed.

Lemma nullable_total (checker : TypeChecker) :
  total checker -> total (nullable checker).
Proof.
  intros H v. unfold returns_on, nullable.
  destruct (strict_equals_null v); [eauto | apply H].
Qed.

(** * Further properties of the source *)

(** ** Arrays *)

Lemma call_every_builtin
  (call_method : nat -> value -> TypeChecker -> result value)
  (checker : TypeChecker) (l : list value) ps pr :
  get_property (VObject (Obj (Some l) ps pr)) "every"
  = VFunction Array_prototype_every ->
  getArrayChecker call_method checker (VObject (Obj (Some l) ps pr))
  = every checker l.
Proof.
  intros H. unfold getArrayChecker, call_every.
  simpl Array_isArray. cbv iota. rewrite H. reflexivity.
Qed.

(** X1: [getArrayChecker]: a value that is not an Array is rejected
    without the checker or any method being consulted.  On an Array
    whose [every] is the built-in one, the answer is [true] exactly
    when the checker accepts all the elements (so on the empty Array),
    and [false] exactly when it rejects an element before which every
    element was accepted.  On an Array whose [every] is not a function
    the call throws a [TypeError]. *)
Theorem getArrayChecker_spec
  (call_method : nat -> value -> TypeChecker -> result value)
  (checker : TypeChecker) (v : value) :
  (Array_isArray v = false -> getArrayChecker call_method checker v = Ok false)
  /\ (forall l ps pr,
         v = VObject (Obj (Some l) ps pr) ->
         get_property v "every" = VFunction Array_prototype_every ->
         (getArrayChecker call_method checker v = Ok true <->
          Forall (fun x => checker x = Ok true) l)
         /\ (getArrayChecker call_method checker v = Ok false <->
             exists before x after,
               l = (before ++ x :: after)%list
               /\ Forall (fun y => checker y = Ok true) before
               /\ checker x = Ok false))
  /\ (Array_isArray v = true ->
      isFunction (get_property v "every") = Ok false ->
      getArrayChecker call_method checker v
      = Throw (TypeError "v.every is not a function")).
Proof.
  split; [|split].
  - intros H. unfold getArrayChecker. rewrite H. reflexivity.
  - intros l ps pr -> H. rewrite (call_every_builtin _ _ _ _ _ H).
    split; [apply every_true | apply every_false].
  - intros Harr H. unfold getArrayChecker, call_every. rewrite Harr.
    destruct (get_property v "every"); try reflexivity. discriminate H.
Qed.

Lemma getArrayChecker_spec_witness :
  get_property (array_literal [num 1; VString "x"]) "every"
  = VFunction Array_prototype_every
  /\ getArrayChecker (fun _ _ _ => Ok VUndefined) isNumber
       (array_literal [num 1; VString "x"]) = Ok false
  /\ isFunction (get_property (VObject (Obj (Some []) [] None)) "every") = Ok false
  /\ getArrayChecker (fun _ _ _ => Ok VUndefined) isNumber
       (VObject (Obj (Some []) [] None))
     = Throw (TypeError "v.every is not a function").
Proof.
  split; [reflexivity|].
  split.
  - apply (proj2 (proj1 (proj2 (getArrayChecker_spec (fun _ _ _ => Ok VUndefined)
                                  isNumber (array_literal [num 1; VString "x"])))
                    [num 1; VString "x"] [] (Some Array_prototype)
                    eq_refl eq_refl)).
    exists [num 1], (VString "x"), []. repeat split. repeat constructor.
  - split; [reflexivity|].
    exact (proj2 (proj2 (getArrayChecker_spec (fun _ _ _ => Ok VUndefined)
                           isNumber (VObject (Obj (Some []) [] None))))
             eq_refl eq_refl).
Defined.

(** ** Records, in full *)

Lemma every_rejected_key {A : Type} (f : A -> result bool)
  (before after : list A) (x : A) :
  Forall (fun y => f y = Ok true) before -> f x = Ok false ->
  every f (before ++ x :: after) = Ok false.
Proof.
  intros Hb Hx. apply every_false. exists before, x, after. auto.
Qed.

(** X2: [getRecordChecker]: the answer is [true] exactly on the objects all
    of whose own enumerable string keys the key checker accepts and all
    of whose own enumerable values the value checker accepts; the keys
    are checked first, so a rejected key gives [false] whatever the
    value checker would do. *)
Theorem getRecordChecker_spec (keyChecker valueChecker : TypeChecker) (v : value) :
  (getRecordChecker keyChecker valueChecker v = Ok true <->
   exists o,
     v = VObject o
     /\ Forall (fun k => keyChecker (VString k) = Ok true) (Object_keys o)
     /\ Forall (fun x => valueChecker x = Ok true) (Object_values o))
  /\ (forall o before k after,
         v = VObject o ->
         Object_keys o = (before ++ k :: after)%list ->
         Forall (fun k' => keyChecker (VString k') = Ok true) before ->
         keyChecker (VString k) = Ok false ->
         getRecordChecker keyChecker valueChecker v = Ok false).
Proof.
  split.
  - unfold getRecordChecker.
    destruct v as [| | | | | | | | o]; simpl;
      try (split; [discriminate | intros (o' & H & _); discriminate H]).
    destruct (every keyChecker (map VString (Object_keys o))) as [[|]|e] eqn:Hk;
      simpl.
    + rewrite every_true. apply every_true in Hk.
      rewrite Forall_map in Hk. split.
      * intros H. exists o. auto.
      * intros (o' & E & _ & H). injection E as <-. exact H.
    + split; [discriminate|]. intros (o' & E & H & _). injection E as <-.
      rewrite <- Forall_map with (f := VString)
                                 (P := fun x => keyChecker x = Ok true) in H.
      apply every_true in H. congruence.
    + split; [discriminate|]. intros (o' & E & H & _). injection E as <-.
      rewrite <- Forall_map with (f := VString)
                                 (P := fun x => keyChecker x = Ok true) in H.
      apply every_true in H. congruence.
  - intros o before k after -> Hkeys Hb Hk.
    unfold getRecordChecker. simpl. rewrite Hkeys, map_app. simpl.
    rewrite every_rejected_key; [reflexivity | | exact Hk].
    rewrite Forall_map. exact Hb.
Qed.

Lemma getRecordChecker_spec_witness :
  Object_keys (Obj None [mkProperty (KString "a") true (num 1);
                         mkProperty (KString "") true (VBigInt 1)] None)
  = (["a"] ++ "" :: [])%list
  /\ getRecordChecker (fun k => Ok (ToBoolean k)) throwing
       (object_literal [("a", num 1); ("", VBigInt 1)]) = Ok false.
Proof.
  split; [reflexivity|].
  refine (proj2 (getRecordChecker_spec (fun k => Ok (ToBoolean k)) throwing
                   (object_literal [("a", num 1); ("", VBigInt 1)]))
            _ ["a"] "" [] eq_refl eq_refl _ eq_refl).
  repeat constructor.
Defined.

Lemma index_properties_enumerable (l : list value) (i : nat) :
  filter enumerable_string_key (index_properties i l) = index_properties i l.
Proof.
  revert i. induction l as [|x l IH]; intros i; simpl; [reflexivity|].
  rewrite IH. reflexivity.
Qed.

Lemma index_properties_values (l : list value) (i : nat) :
  map p_value (index_properties i l) = l.
Proof.
  revert i. induction l as [|x l IH]; intros i; simpl; [reflexivity|].
  rewrite IH. reflexivity.
Qed.

Lemma every_strings (keys : list string) :
  every isString (map VString keys) = Ok true.
Proof.
  induction keys as [|k keys IH]; simpl; [reflexivity | exact IH].
Qed.

(** X3: An Array with no further own property, whose [every] is the
    built-in one, is a record with string keys: on it, the record
    checker for [isString] keys and the Array checker give the same
    answer. *)
Theorem getRecordChecker_on_arrays
  (call_method : nat -> value -> TypeChecker -> result value)
  (valueChecker : TypeChecker) (l : list value) (pr : option object) :
  get_property (VObject (Obj (Some l) [] pr)) "every"
  = VFunction Array_prototype_every ->
  getRecordChecker isString valueChecker (VObject (Obj (Some l) [] pr))
  = getArrayChecker call_method valueChecker (VObject (Obj (Some l) [] pr)).
Proof.
  intros H. rewrite (call_every_builtin _ _ _ _ _ H).
  unfold getRecordChecker. simpl.
  rewrite every_strings. simpl.
  unfold Object_values, own_enumerable. simpl.
  rewrite filter_app. simpl. rewrite app_nil_r.
  rewrite index_properties_enumerable, index_properties_values. reflexivity.
Qed.

Lemma getRecordChecker_on_arrays_witness :
  get_property (array_literal [num 1; num 2]) "every"
  = VFunction Array_prototype_every
  /\ getRecordChecker isString isNumber (array_literal [num 1; num 2])
     = getArrayChecker (fun _ _ _ => Ok VUndefined) isNumber
         (array_literal [num 1; num 2]).
Proof.
  split; [reflexivity|].
  exact (getRecordChecker_on_arrays (fun _ _ _ => Ok VUndefined) isNumber
           [num 1; num 2] (Some Array_prototype) eq_refl).
Defined.

(** ** nullable and literals *)

(** X4: [nullable(checker)] is the union of [isNull] and [checker], also
    when [checker] throws, and applying [nullable] twice is the same as
    applying it once. *)
Theorem nullable_is_union (checker : TypeChecker) (v : value) :
  nullable checker v = getUnionOf [isNull; checker] v
  /\ nullable (nullable checker) v = nullable checker v.
Proof.
  unfold nullable. simpl.
  destruct (strict_equals_null v); simpl; [split; reflexivity|].
  split; [|reflexivity].
  destruct (checker v) as [[|]|e]; reflexivity.
Qed.

Lemma safe_integer_eq (a b : safe_integer) :
  int_value a = int_value b -> a = b.
Proof.
  destruct a as [x Hx], b as [y Hy]. simpl. intros <-.
  f_equal. apply UIP_dec. apply Bool.bool_dec.
Qed.

(** X5: [getLiteralChecker(expected)] accepts exactly the value of the
    literal, and no value at all when the literal is [NaN]. *)
Theorem getLiteralChecker_spec (expected : literal) (v : value) :
  getLiteralChecker expected v = Ok true <->
  v = value_of_literal expected /\ expected <> LNumber NaN.
Proof.
  unfold getLiteralChecker. split.
  - intros H. injection H as H.
    destruct v as [| | a | [| a | a] | a | a | | |];
      destruct expected as [b | b | [| b | b] | b];
      simpl in H; try discriminate H.
    + apply Bool.eqb_prop in H. subst. split; [reflexivity | discriminate].
    + apply Bool.eqb_prop in H. subst. split; [reflexivity | discriminate].
    + apply Z.eqb_eq in H. apply safe_integer_eq in H. subst.
      split; [reflexivity | discriminate].
    + apply String.eqb_eq in H. subst. split; [reflexivity | discriminate].
    + apply Z.eqb_eq in H. subst. split; [reflexivity | discriminate].
  - intros [-> Hnan]. f_equal.
    destruct expected as [b | b | [| b | b] | b]; simpl.
    + apply String.eqb_refl.
    + apply Bool.eqb_reflx.
    + contradiction Hnan. reflexivity.
    + apply Bool.eqb_reflx.
    + apply Z.eqb_refl.
    + apply Z.eqb_refl.
Qed.

(** ** cast, as a function *)

Lemma cast_rejection_throws
  (checker : TypeChecker) (name : option string) (v w : value) :
  checker v = Ok false -> cast checker name v <> Ok w.
Proof.
  intros H. rewrite (cast_rejects _ _ _ H).
  destruct (JSON_stringify v); simpl; discriminate.
Qed.

(** X6: [cast(checker, name)] returns a value only when the checker accepts
    the argument, and then it returns the argument; a returned value
    passes the same cast again. *)
Theorem cast_returns_accepted
  (checker : TypeChecker) (name : option string) (v w : value) :
  (cast checker name v = Ok w <-> checker v = Ok true /\ w = v)
  /\ (cast checker name v = Ok w -> cast checker name w = Ok w).
Proof.
  assert (E : cast checker name v = Ok w <-> checker v = Ok true /\ w = v).
  { split.
    - intros H. destruct (checker v) as [[|]|e] eqn:Hc.
      + rewrite (cast_accepts _ _ _ Hc) in H. injection H as <-. auto.
      + exfalso. exact (cast_rejection_throws _ _ _ _ Hc H).
      + unfold cast in H. rewrite Hc in H. discriminate H.
    - intros [Hc ->]. apply cast_accepts. exact Hc. }
  split; [exact E|].
  intros H. apply E in H. destruct H as [Hc ->]. apply cast_accepts. exact Hc.
Qed.

Lemma cast_returns_accepted_witness :
  cast isNumber (Some "number") (num 5) = Ok (num 5)
  /\ cast isNumber (Some "number") (num 5) = Ok (num 5).
Proof.
  split; [reflexivity|].
  exact (proj2 (cast_returns_accepted isNumber (Some "number") (num 5) (num 5))
           eq_refl).
Defined.

(** ** Union, as an operation on checkers *)

Lemma getUnionOf_app (cs1 cs2 : list TypeChecker) (v : value) :
  getUnionOf (cs1 ++ cs2) v =
  (b <- getUnionOf cs1 v ;; if b then Ok true else getUnionOf cs2 v).
Proof.
  induction cs1 as [|c cs1 IH]; simpl; [reflexivity|].
  destruct (c v) as [[|]|e]; simpl; auto.
Qed.

Lemma getUnionOf_answer (cs : list TypeChecker) (v : value) :
  (b <- getUnionOf cs v ;; if b then Ok true else Ok false) = getUnionOf cs v.
Proof. destruct (getUnionOf cs v) as [[|]|e]; reflexivity. Qed.

(** X7: Unions nest: the union of unions is the union of all their
    constituents in order; and [isNever] may be dropped from a union
    wherever it stands. *)
Theorem getUnionOf_flatten (groups : list (list TypeChecker)) (v : value) :
  getUnionOf (map getUnionOf groups) v = getUnionOf (List.concat groups) v
  /\ (forall cs1 cs2,
         getUnionOf (cs1 ++ isNever :: cs2) v = getUnionOf (cs1 ++ cs2) v).
Proof.
  split.
  - induction groups as [|cs groups IH]; simpl; [reflexivity|].
    rewrite getUnionOf_app, IH. reflexivity.
  - intros cs1 cs2. rewrite !getUnionOf_app. reflexivity.
Qed.

(** X8: Over checkers that answer on [v], the order of the constituents of
    a union does not matter; it does when a constituent throws. *)
Theorem getUnionOf_permutation (cs cs' : list TypeChecker) (v : value) :
  Permutation cs cs' ->
  Forall (returns_on v) cs ->
  getUnionOf cs v = getUnionOf cs' v.
Proof.
  induction 1 as [| c l l' _ IH | c d l | l l' l'' H1 IH1 H2 IH2]; intros Hall.
  - reflexivity.
  - simpl. inversion Hall; subst. rewrite IH by assumption. reflexivity.
  - inversion Hall as [|? ? [b Hb] Hall']; subst.
    inversion Hall' as [|? ? [b' Hb'] _]; subst.
    simpl. rewrite Hb, Hb'. destruct b, b'; reflexivity.
  - rewrite IH1 by assumption. apply IH2.
    apply (Permutation_Forall H1). exact Hall.
Qed.

Lemma getUnionOf_permutation_witness :
  Permutation [isString; isNumber] [isNumber; isString]
  /\ Forall (returns_on (num 5)) [isString; isNumber]
  /\ getUnionOf [isString; isNumber] (num 5) = getUnionOf [isNumber; isString] (num 5)
  /\ getUnionOf [isAny; throwing] (num 5) = Ok true
  /\ getUnionOf [throwing; isAny] (num 5) = Throw (TypeError "unreachable").
Proof.
  assert (P : Permutation [isString; isNumber] [isNumber; isString])
    by apply perm_swap.
  assert (A : Forall (returns_on (num 5)) [isString; isNumber]).
  { repeat constructor; eexists; reflexivity. }
  split; [exact P|]. split; [exact A|].
  split; [exact (getUnionOf_permutation _ _ (num 5) P A)|].
  split; reflexivity.
Defined.

(** X9: Every value is of one of the nine primitive kinds: the union of the
    nine primitive checkers accepts every value, as [isAny] does. *)
Theorem primitive_checkers_exhaustive (v : value) :
  getUnionOf primitive_checkers v = isAny v.
Proof. destruct v; reflexivity. Qed.

(** ** Mappings, as shapes *)

Lemma getMappedChecker_true (mapping : Mapping) (v : value) :
  getMappedChecker mapping v = Ok true <->
  isObject v = Ok true
  /\ forall k c, mapping_get mapping k = Some c -> c (get_property v k) = Ok true.
Proof.
  unfold getMappedChecker.
  destruct (isObject v) as [[|]|e] eqn:Hobj; simpl.
  - rewrite check_values_true, Forall_forall. split.
    + intros H. split; [reflexivity|]. intros k c Hk.
      destruct (H k) as (c' & E & Hc'); [apply mapping_get_key; eauto|].
      congruence.
    + intros [_ H] k Hk. apply mapping_get_key in Hk. destruct Hk as [c Hc].
      eauto.
  - split; [discriminate | intros [H _]; discriminate H].
  - split; [discriminate | intros [H _]; discriminate H].
Qed.

Lemma mapping_get_app (m m' : Mapping) (k : string) :
  mapping_get (m ++ m')%list k =
  match mapping_get m k with
  | Some c => Some c
  | None => mapping_get m' k
  end.
Proof.
  unfold mapping_get. induction m as [|[k0 c0] m IH]; simpl; [reflexivity|].
  destruct (k0 =? k); simpl; [reflexivity | exact IH].
Qed.

Lemma mapping_get_absent (m : Mapping) (k : string) :
  ~ In k (map fst m) -> mapping_get m k = None.
Proof.
  intros H. destruct (mapping_get m k) as [c|] eqn:E; [|reflexivity].
  contradiction H. apply mapping_get_key. eauto.
Qed.

(** X10: Two mappings that declare different keys, put together, describe
    the values that both describe: the mapped checker of [m ++ m']
    accepts exactly what the mapped checkers of [m] and of [m'] both
    accept. *)
Theorem getMappedChecker_app (m m' : Mapping) (v : value) :
  (forall k, In k (map fst m) -> ~ In k (map fst m')) ->
  (getMappedChecker (m ++ m')%list v = Ok true <->
   getMappedChecker m v = Ok true /\ getMappedChecker m' v = Ok true).
Proof.
  intros Hdisjoint. rewrite !getMappedChecker_true. split.
  - intros [Hobj H]. repeat split; try exact Hobj.
    + intros k c Hk. apply H. rewrite mapping_get_app, Hk. reflexivity.
    + intros k c Hk. apply H. rewrite mapping_get_app.
      rewrite mapping_get_absent; [exact Hk|].
      intros Hin. apply (Hdisjoint k Hin). apply mapping_get_key. eauto.
  - intros [[Hobj H] [_ H']]. split; [exact Hobj|].
    intros k c Hk. rewrite mapping_get_app in Hk.
    destruct (mapping_get m k) as [c0|] eqn:E.
    + injection Hk as <-. apply H. exact E.
    + apply H'. exact Hk.
Qed.

Lemma getMappedChecker_app_witness :
  (forall k, In k (map fst [("a", isNumber)]) ->
             ~ In k (map fst [("b", isString)]))
  /\ (getMappedChecker ([("a", isNumber)] ++ [("b", isString)])%list
        (object_literal [("a", num 1); ("b", VString "x")]) = Ok true <->
      getMappedChecker [("a", isNumber)]
        (object_literal [("a", num 1); ("b", VString "x")]) = Ok true
      /\ getMappedChecker [("b", isString)]
           (object_literal [("a", num 1); ("b", VString "x")]) = Ok true).
Proof.
  assert (D : forall k, In k (map fst [("a", isNumber)]) ->
                        ~ In k (map fst [("b", isString)])).
  { intros k [<-|[]] [E|[]]. discriminate E. }
  split; [exact D|].
  exact (getMappedChecker_app [("a", isNumber)] [("b", isString)]
           (object_literal [("a", num 1); ("b", VString "x")]) D).
Defined.

Lemma check_values_mapping_ext (m m' : Mapping) (v : value) (keys : list string) :
  (forall k, In k keys -> mapping_get m k = mapping_get m' k) ->
  check_values m v keys = check_values m' v keys.
Proof.
  induction keys as [|k keys IH]; simpl; intros H; [reflexivity|].
  rewrite (H k) by (left; reflexivity).
  rewrite IH by (intros k' Hk'; apply H; right; exact Hk').
  reflexivity.
Qed.

(** X11: A declared key whose checker accepts [undefined] is optional: on a
    value whose property at that key is [undefined] (a key that is
    missing, for one), declaring it changes nothing. *)
Theorem getMappedChecker_optional_key
  (k : string) (c : TypeChecker) (m : Mapping) (v : value) :
  ~ In k (map fst m) ->
  get_property v k = VUndefined ->
  c VUndefined = Ok true ->
  getMappedChecker ((k, c) :: m) v = getMappedChecker m v.
Proof.
  intros Hk Hv Hc. unfold getMappedChecker.
  destruct (isObject v) as [[|]|e]; simpl; try reflexivity.
  unfold mapping_get at 1. simpl. rewrite String.eqb_refl. simpl.
  rewrite Hv, Hc. simpl.
  apply check_values_mapping_ext. intros k' Hk'.
  unfold mapping_get. simpl.
  destruct (k =? k') eqn:E; [|reflexivity].
  apply String.eqb_eq in E. subst k'. contradiction.
Qed.

Lemma getMappedChecker_optional_key_witness :
  ~ In "b" (map fst [("a", isNumber)])
  /\ get_property (object_literal [("a", num 1)]) "b" = VUndefined
  /\ getUnionOf [isString; isUndefined] VUndefined = Ok true
  /\ getMappedChecker [("b", getUnionOf [isString; isUndefined]); ("a", isNumber)]
       (object_literal [("a", num 1)])
     = getMappedChecker [("a", isNumber)] (object_literal [("a", num 1)]).
Proof.
  assert (H : ~ In "b" (map fst [("a", isNumber)])).
  { intros [E|[]]. discriminate E. }
  split; [exact H|]. split; [reflexivity|]. split; [reflexivity|].
  exact (getMappedChecker_optional_key "b" (getUnionOf [isString; isUndefined])
           [("a", isNumber)] (object_literal [("a", num 1)]) H eq_refl eq_refl).
Defined.

(** X12: The mapped checker reads inherited properties: an object that has
    none of the declared keys as an own property is checked as its
    prototype is. *)
Theorem getMappedChecker_inherited
  (mapping : Mapping) (el : option (list value)) (ps : list (property value))
  (p : object) :
  (forall k, In k (map fst mapping) ->
             get_own (Obj el ps (Some p)) (KString k) = None) ->
  getMappedChecker mapping (VObject (Obj el ps (Some p)))
  = getMappedChecker mapping (VObject p).
Proof.
  intros Hown. unfold getMappedChecker. simpl.
  apply check_values_ext. intros k Hk. simpl.
  rewrite (Hown k Hk). reflexivity.
Qed.

Lemma getMappedChecker_inherited_witness :
  (forall k, In k (map fst [("a", isNumber)]) ->
             get_own (Obj None [mkProperty (KString "c") true VNull]
                        (Some (Obj None [mkProperty (KString "a") true (num 1)] None)))
               (KString k) = None)
  /\ getMappedChecker [("a", isNumber)]
       (VObject (Obj None [mkProperty (KString "c") true VNull]
                   (Some (Obj None [mkProperty (KString "a") true (num 1)] None))))
     = Ok true.
Proof.
  assert (H : forall k, In k (map fst [("a", isNumber)]) ->
              get_own (Obj None [mkProperty (KString "c") true VNull]
                         (Some (Obj None [mkProperty (KString "a") true (num 1)] None)))
                (KString k) = None).
  { intros k [<-|[]]. reflexivity. }
  split; [exact H|].
  exact (getMappedChecker_inherited [("a", isNumber)] None
           [mkProperty (KString "c") true VNull]
           (Obj None [mkProperty (KString "a") true (num 1)] None) H).
Defined.

Lemma check_values_false (mapping : Mapping) (v : value) (keys : list string) :
  check_values mapping v keys = Ok false <->
  exists before k after c,
    keys = (before ++ k :: after)%list
    /\ Forall (fun k' => exists c', mapping_get mapping k' = Some c'
                                    /\ c' (get_property v k') = Ok true) before
    /\ mapping_get mapping k = Some c
    /\ c (get_property v k) = Ok false.
Proof.
  induction keys as [|k0 keys IH]; simpl.
  - split; [discriminate|].
    intros (before & k & after & c & H & _). destruct before; discriminate H.
  - destruct (mapping_get mapping k0) as [c0|] eqn:Hk0.
    + destruct (c0 (get_property v k0)) as [[|]|e] eqn:Hc0; simpl.
      * rewrite IH. split.
        -- intros (before & k & after & c & -> & Hb & Hk & Hc).
           exists (k0 :: before), k, after, c. repeat split; eauto.
        -- intros (before & k & after & c & H & Hb & Hk & Hc).
           destruct before as [|z before]; simpl in H; injection H as -> ->.
           ++ congruence.
           ++ inversion Hb; subst. exists before, k, after, c. auto.
      * split; [|reflexivity]. intros _.
        exists [], k0, keys, c0. repeat split; auto.
      * split; [discriminate|].
        intros (before & k & after & c & H & Hb & Hk & Hc).
        destruct before as [|z before]; simpl in H; injection H as -> ->.
        -- congruence.
        -- inversion Hb as [|? ? (c' & E & Hc') ?]; subst. congruence.
    + split; [discriminate|].
      intros (before & k & after & c & H & Hb & Hk & Hc).
      destruct before as [|z before]; simpl in H; injection H as -> ->.
      * congruence.
      * inversion Hb as [|? ? (c' & E & Hc') ?]; subst. congruence.
Qed.

(** X13: The mapped checker answers [false] exactly on the values that are
    not objects and on the objects with a declared key whose checker
    rejects the property, all the keys declared before it having been
    accepted: the keys declared after it are not looked at. *)
Theorem getMappedChecker_false (mapping : Mapping) (v : value) :
  getMappedChecker mapping v = Ok false <->
  isObject v = Ok false
  \/ (isObject v = Ok true
      /\ exists before k after c,
           map fst mapping = (before ++ k :: after)%list
           /\ Forall (fun k' => exists c', mapping_get mapping k' = Some c'
                                           /\ c' (get_property v k') = Ok true)
                before
           /\ mapping_get mapping k = Some c
           /\ c (get_property v k) = Ok false).
Proof.
  unfold getMappedChecker.
  destruct (isObject v) as [[|]|e] eqn:Hobj; simpl.
  - rewrite check_values_false. split.
    + intros H. right. split; [reflexivity | exact H].
    + intros [H|[_ H]]; [discriminate H | exact H].
  - split; [auto | reflexivity].
  - split; [discriminate|]. intros [H|[H _]]; discriminate H.
Qed.

(** ** Enums and the keys that are dropped *)

Lemma filter_keys (p : string -> bool) (enumType : Enum) :
  filter p (map fst enumType)
  = map fst (filter (fun entry => p (fst entry)) enumType).
Proof.
  induction enumType as [|[k m] e IH]; simpl; [reflexivity|].
  destruct (p k); simpl; rewrite IH; reflexivity.
Qed.

Lemma enum_get_filter (p : string -> bool) (enumType : Enum) (k : string) :
  p k = true ->
  enum_get (filter (fun entry => p (fst entry)) enumType) k = enum_get enumType k.
Proof.
  intros Hk. unfold enum_get. f_equal.
  induction enumType as [|[k0 m0] e IH]; simpl; [reflexivity|].
  destruct (p k0) eqn:Hp; simpl.
  - destruct (k0 =? k); [reflexivity | exact IH].
  - destruct (k0 =? k) eqn:E; [|exact IH].
    apply String.eqb_eq in E. congruence.
Qed.

Lemma enum_values_kept (enumType : Enum) :
  enum_values (filter (fun entry => negb (numeric_key entry)) enumType)
  = enum_values enumType.
Proof.
  unfold enum_values, enum_keys, numeric_key.
  rewrite !filter_keys.
  set (p := fun entry : string * enum_member =>
              negb (RegExp_test NUMBER_REGEX (fst entry))).
  assert (Hidem : filter p (filter p enumType) = filter p enumType).
  { induction enumType as [|x e IH]; simpl; [reflexivity|].
    destruct (p x) eqn:Hx; simpl; [rewrite Hx, IH; reflexivity | exact IH]. }
  rewrite Hidem. rewrite !map_map. apply map_ext_in.
  intros [k m] Hin. simpl.
  apply filter_In in Hin. destruct Hin as [_ Hk].
  apply (enum_get_filter (fun k => negb (RegExp_test NUMBER_REGEX k))).
  exact Hk.
Qed.

(** X14: The entries of an enum whose key [NUMBER_REGEX] matches never
    contribute: removing them does not change the checker, and an enum
    with nothing but such keys gives a checker that rejects every
    value. *)
Theorem getEnumChecker_numeric_keys_dropped (enumType : Enum) (v : value) :
  getEnumChecker enumType v
  = getEnumChecker (filter (fun entry => negb (numeric_key entry)) enumType) v
  /\ (forallb numeric_key enumType = true -> getEnumChecker enumType v = Ok false).
Proof.
  split.
  - unfold getEnumChecker. rewrite enum_values_kept. reflexivity.
  - intros Hall. unfold getEnumChecker.
    rewrite <- enum_values_kept.
    assert (E : filter (fun entry => negb (numeric_key entry)) enumType = []).
    { induction enumType as [|x e IH]; simpl in *; [reflexivity|].
      apply andb_true_iff in Hall. destruct Hall as [Hx He].
      rewrite Hx. simpl. apply IH. exact He. }
    rewrite E. reflexivity.
Qed.

Lemma getEnumChecker_numeric_keys_dropped_witness :
  forallb numeric_key [("0", EString "Red"); ("1e5", EString "x")] = true
  /\ getEnumChecker [("0", EString "Red"); ("1e5", EString "x")] (VString "x")
     = Ok false.
Proof.
  split; [reflexivity|].
  exact (proj2 (getEnumChecker_numeric_keys_dropped
                  [("0", EString "Red"); ("1e5", EString "x")] (VString "x"))
           eq_refl).
Defined.

(** X15: The enum checker accepts strings and numbers only. *)
Theorem getEnumChecker_accepts_members_only (enumType : Enum) (v : value) :
  getEnumChecker enumType v = Ok true ->
  typeof v = "string" \/ typeof v = "number".
Proof.
  unfold getEnumChecker, includes, enum_values. intros H. injection H as H.
  apply existsb_exists in H. destruct H as (c & Hin & Hc).
  apply in_map_iff in Hin. destruct Hin as (k & Hget & Hk).
  apply filter_In in Hk. destruct Hk as [Hk _].
  destruct (proj1 (enum_get_key enumType k) Hk) as [m Hm].
  rewrite Hm in Hget. subst c.
  destruct m as [s|n]; destruct v as [| | | [| |] | | | | |];
    simpl in Hc; try discriminate Hc; auto.
Qed.

Lemma getEnumChecker_accepts_members_only_witness :
  getEnumChecker Red_Green (num 1) = Ok true
  /\ (typeof (num 1) = "string" \/ typeof (num 1) = "number").
Proof.
  split; [reflexivity|].
  exact (getEnumChecker_accepts_members_only Red_Green (num 1) eq_refl).
Defined.

(** ** What [NUMBER_REGEX] matches *)

Lemma all_digits_uint (d : Decimal.uint) :
  all_digits (NilEmpty.string_of_uint d) = true.
Proof. induction d; simpl; auto. Qed.

Lemma digits_uint (d : Decimal.uint) : digits (NilZero.string_of_uint d).
Proof.
  split.
  - destruct d; simpl; discriminate.
  - destruct d; try reflexivity; simpl; apply all_digits_uint.
Qed.

Lemma numeric_literal_digits (s : string) :
  digits s -> numeric_literal s /\ numeric_literal ("-" ++ s).
Proof.
  intros H. split.
  - exists "", s, "", "". simpl. rewrite append_nil_r.
    repeat split; try exact (proj1 H); try exact (proj2 H); left; reflexivity.
  - exists "-", s, "", "". simpl. rewrite append_nil_r.
    repeat split; try exact (proj1 H); try exact (proj2 H);
      try (left; reflexivity). right. reflexivity.
Qed.

(** X16: [NUMBER_REGEX] matches every string of one or more digits,
    with or without a leading minus, and so the rendering of every
    safe integer: the reverse alias of an enum member whose value is a
    safe integer is always among the dropped keys. *)
Theorem NUMBER_REGEX_integers :
  (forall s, digits s ->
             RegExp_test NUMBER_REGEX s = true
             /\ RegExp_test NUMBER_REGEX ("-" ++ s) = true)
  /\ (forall i : safe_integer,
         RegExp_test NUMBER_REGEX (string_of_Z (int_value i)) = true
         /\ JSON_stringify (VNumber (Finite i))
            = Ok (Some (string_of_Z (int_value i)))).
Proof.
  assert (D : forall s, digits s ->
                        RegExp_test NUMBER_REGEX s = true
                        /\ RegExp_test NUMBER_REGEX ("-" ++ s) = true).
  { intros s H. rewrite !NUMBER_REGEX_numeric_literal.
    apply numeric_literal_digits. exact H. }
  split; [exact D|].
  intros i. split; [|reflexivity]. unfold string_of_Z.
  destruct (Z.to_int (int_value i)) as [d|d]; simpl.
  - apply D. apply digits_uint.
  - apply (D (NilZero.string_of_uint d)). apply digits_uint.
Qed.

Lemma NUMBER_REGEX_integers_witness :
  digits "42"
  /\ RegExp_test NUMBER_REGEX "42" = true
  /\ RegExp_test NUMBER_REGEX ("-" ++ "42") = true.
Proof.
  assert (H : digits "42") by (split; [discriminate | reflexivity]).
  split; [exact H|].
  exact (proj1 NUMBER_REGEX_integers "42" H).
Defined.

Lemma all_chars_app (p : ascii -> bool) (s t : string) :
  all_chars p (s ++ t) = all_chars p s && all_chars p t.
Proof.
  induction s as [|c s IH]; simpl; [reflexivity|].
  rewrite IH. apply andb_assoc.
Qed.

Lemma all_digits_literal_chars (s : string) :
  all_digits s = true -> all_chars literal_char s = true.
Proof.
  induction s as [|c s IH]; simpl; [reflexivity|].
  intros H. apply andb_true_iff in H. destruct H as [Hc Hs].
  rewrite (IH Hs). unfold literal_char. rewrite Hc. reflexivity.
Qed.

Lemma minus_literal_chars (s : string) :
  optional minus s -> all_chars literal_char s = true.
Proof. intros [->| ->]; reflexivity. Qed.

(** X17: A key that [NUMBER_REGEX] matches starts with a digit or a minus
    and is made of digits, [-], [.] and [e] only: a key that starts
    with a letter, or that holds any other character (a [+], an
    upper-case [E], a space), is never dropped. *)
Theorem NUMBER_REGEX_alphabet (s : string) :
  RegExp_test NUMBER_REGEX s = true ->
  starts_with (fun c => is_digit c || Ascii.eqb c "-") s = true
  /\ all_chars literal_char s = true.
Proof.
  rewrite NUMBER_REGEX_numeric_literal.
  intros (sign & int & frac & exp & -> & Hsign & [Hne Hint] & Hfrac & Hexp).
  split.
  - destruct Hsign as [->| ->]; [|reflexivity].
    destruct int as [|c int]; [contradiction Hne; reflexivity|].
    simpl in *. apply andb_true_iff in Hint. destruct Hint as [-> _]. reflexivity.
  - rewrite !all_chars_app.
    rewrite (minus_literal_chars _ Hsign), (all_digits_literal_chars _ Hint).
    simpl.
    assert (Hf : all_chars literal_char frac = true).
    { destruct Hfrac as [->|(d & -> & _ & Hd)]; [reflexivity|].
      simpl. apply all_digits_literal_chars. exact Hd. }
    assert (He : all_chars literal_char exp = true).
    { destruct Hexp as [->|(sg & d & -> & Hsg & _ & Hd)]; [reflexivity|].
      simpl. rewrite all_chars_app.
      rewrite (minus_literal_chars _ Hsg), (all_digits_literal_chars _ Hd).
      reflexivity. }
    rewrite Hf, He. reflexivity.
Qed.

Lemma NUMBER_REGEX_alphabet_witness :
  RegExp_test NUMBER_REGEX "-12.5e-3" = true
  /\ starts_with (fun c => is_digit c || Ascii.eqb c "-") "-12.5e-3" = true
  /\ all_chars literal_char "-12.5e-3" = true.
Proof.
  split; [reflexivity|].
  exact (NUMBER_REGEX_alphabet "-12.5e-3" eq_refl).
Defined.

(** ** cast over an intersection *)

(** X18: A cast built on an intersection of one or more checkers never
    returns a value that is not a function: the call of the value
    throws inside the checker, and [cast] ends with that [TypeError],
    not with a message of its own. *)
Theorem cast_of_intersection
  (call_function : nat -> TypeChecker -> result value)
  (c : TypeChecker) (cs : list TypeChecker) (name : option string) (v : value) :
  isFunction v = Ok false ->
  cast (getIntersectionOf call_function (c :: cs)) name v = Throw not_a_function.
Proof.
  intros H. unfold cast.
  rewrite (getIntersectionOf_non_function call_function c cs v H). reflexivity.
Qed.

Lemma cast_of_intersection_witness :
  isFunction (object_literal [("a", num 1)]) = Ok false
  /\ cast (getIntersectionOf (fun _ _ => Ok VUndefined)
             [isObject; getMappedChecker [("a", isNumber)]])
       (Some "shape") (object_literal [("a", num 1)])
     = Throw not_a_function.
Proof.
  split; [reflexivity|].
  exact (cast_of_intersection (fun _ _ => Ok VUndefined) isObject
           [getMappedChecker [("a", isNumber)]] (Some "shape")
           (object_literal [("a", num 1)]) eq_refl).
Defined.
